(** * Link-layer reconciliation state of a machine (networkingcommon)

    A shallow embedding of [MachineLinkLayerOp], the base type of the model
    operations that update the link-layer data of one machine, together
    with the properties of its accessors, matchers and processed-set
    tracker.

    Go strings are byte sequences and are embedded as [string]; slices are
    lists ([nil] is the empty list); [set.Strings] of juju/collections is a
    finite set of strings, embedded as [gset string]; a Go [error] value is
    an [option error], [None] being [nil].  Methods have a pointer receiver
    and are therefore embedded in a state monad over the operation.

    The development goes on with the refresh configurations of the charmhub
    client (platforms, metadata headers, the requests that the
    configurations build and the responses they accept; Go maps are
    [gmap]s) and with the API connections of the [SSHContainer] command
    helper, whose methods pass the container explicitly. *)

From Stdlib Require Import String Ascii List Permutation ZArith.
From stdpp Require Import base gmap sets list strings sorting.
Import ListNotations.

(** ** juju/errors *)

Module errors.

(** An error is a message, possibly wrapped by location annotations. *)
Inductive error : Type :=
| New (msg : string)
| Traced (cause : error).

(** [errors.Trace] annotates a non-nil error and maps nil to nil. *)
Definition Trace (err : option error) : option error :=
  match err with
  | None => None
  | Some e => Some (Traced e)
  end.

End errors.

(** ** core/network *)

Module network.

Definition Id := string.
Definition Origin := string.

(** Modelled from the spec: the address observation carried by an incoming
    interface, a type of core/network whose declaration is missing here.
    Each observation has a value and its own origin and provider
    identifiers. *)
Record ProviderAddress : Type := {
  Value : string;
  AddrOrigin : Origin;
  ProviderID : Id;
  ProviderNetworkID : Id;
  ProviderSubnetID : Id
}.

(** Modelled from the spec: [network.InterfaceInfo], whose declaration in
    core/network is missing here.  An incoming interface has a hardware
    address, an interface name, an optional parent interface name (empty
    when absent) and its address observations. *)
Record InterfaceInfo : Type := {
  MACAddress : string;
  InterfaceName : string;
  ParentInterfaceName : string;
  Addresses : list ProviderAddress
}.

Definition InterfaceInfos := list InterfaceInfo.

(** Modelled from the spec: folding of one byte to lower case, the
    normalisation under which hardware addresses are compared. *)
Definition lower_byte (c : ascii) : ascii :=
  let n := nat_of_ascii c in
  if (65 <=? n)%nat && (n <=? 90)%nat then ascii_of_nat (n + 32) else c.

Fixpoint ToLower (s : string) : string :=
  match s with
  | EmptyString => EmptyString
  | String c s' => String (lower_byte c) (ToLower s')
  end.

(** Modelled from the spec: the comparison of two hardware addresses,
    which the spec requires to be case-insensitive. *)
Definition hwAddrEqual (a b : string) : bool :=
  String.eqb (ToLower a) (ToLower b).

(** Modelled from the spec: [InterfaceInfos.GetByHardwareAddress], a
    method of core/network whose body is missing here.  It scans the
    collection in order and collects the interfaces whose hardware address
    equals the input one. *)
Definition GetByHardwareAddress (s : InterfaceInfos) (hwAddr : string)
  : InterfaceInfos :=
  fold_left
    (fun res dev =>
       if hwAddrEqual (MACAddress dev) hwAddr then res ++ [dev] else res)
    s [].

End network.

(** ** state *)

Module state.

(** Modelled from the spec: [state.LinkLayerDeviceAddress], whose
    declaration in the state package is missing here; the state arguments
    of an incoming address are represented by the address observation they
    are built from. *)
Definition LinkLayerDeviceAddress := network.ProviderAddress.

End state.

(** ** The persistence capabilities *)

(** [LinkLayerDevice]: the read accessors of a known layer-2 device.  The
    methods that produce transaction operations are not used by the
    reconciliation state and are left out. *)
Record LinkLayerDevice : Type := {
  ID : string;
  MACAddress : string;
  Name : string;
  ProviderID : network.Id;
  ParentID : string
}.

(** [LinkLayerAddress]: the read accessors of a known layer-3 address. *)
Record LinkLayerAddress : Type := {
  DeviceName : string;
  Value : string;
  Origin : network.Origin
}.

(** [LinkLayerMachine]: the machine's identifier and the outcome of its two
    accessors, each a Go result pair (collection, error). *)
Record LinkLayerMachine : Type := {
  Id : string;
  AllLinkLayerDevices : list LinkLayerDevice * option errors.error;
  AllAddresses : list LinkLayerAddress * option errors.error
}.

(** ** The operation *)

Record MachineLinkLayerOp : Type := {
  machine : LinkLayerMachine;
  incoming : network.InterfaceInfos;
  processedDevs : gset string;
  processedAddrs : gset string;
  existingDevs : list LinkLayerDevice;
  existingAddrs : list LinkLayerAddress
}.

Definition set_existingDevs (v : list LinkLayerDevice)
  (o : MachineLinkLayerOp) : MachineLinkLayerOp :=
  {| machine := machine o; incoming := incoming o;
     processedDevs := processedDevs o; processedAddrs := processedAddrs o;
     existingDevs := v; existingAddrs := existingAddrs o |}.

Definition set_existingAddrs (v : list LinkLayerAddress)
  (o : MachineLinkLayerOp) : MachineLinkLayerOp :=
  {| machine := machine o; incoming := incoming o;
     processedDevs := processedDevs o; processedAddrs := processedAddrs o;
     existingDevs := existingDevs o; existingAddrs := v |}.

Definition set_processedDevs (v : gset string)
  (o : MachineLinkLayerOp) : MachineLinkLayerOp :=
  {| machine := machine o; incoming := incoming o;
     processedDevs := v; processedAddrs := processedAddrs o;
     existingDevs := existingDevs o; existingAddrs := existingAddrs o |}.

Definition set_processedAddrs (v : gset string)
  (o : MachineLinkLayerOp) : MachineLinkLayerOp :=
  {| machine := machine o; incoming := incoming o;
     processedDevs := processedDevs o; processedAddrs := v;
     existingDevs := existingDevs o; existingAddrs := existingAddrs o |}.

(** Methods on [*MachineLinkLayerOp]: a computation takes the operation the
    receiver points to and returns its result with the operation as the
    method leaves it. *)
Definition M (A : Type) : Type := MachineLinkLayerOp -> A * MachineLinkLayerOp.

#[global] Instance M_ret : MRet M := fun A x o => (x, o).
#[global] Instance M_bind : MBind M :=
  fun A B f m o => let '(a, o') := m o in f a o'.

Definition gets {A : Type} (f : MachineLinkLayerOp -> A) : M A :=
  fun o => (f o, o).
Definition modify (f : MachineLinkLayerOp -> MachineLinkLayerOp) : M unit :=
  fun o => (tt, f o).

(** Result and final state of running a method. *)
Definition eval {A : Type} (m : M A) (o : MachineLinkLayerOp) : A := fst (m o).
Definition exec {A : Type} (m : M A) (o : MachineLinkLayerOp)
  : MachineLinkLayerOp := snd (m o).

(** [set.Strings.Add] and [set.Strings.Contains]. *)
Definition Add (v : string) (s : gset string) : gset string := {[ v ]} ∪ s.
Definition Contains (s : gset string) (v : string) : bool :=
  bool_decide (v ∈ s).

(** The logging call of the constructor has no effect on the operation. *)
Definition NewMachineLinkLayerOp (machine : LinkLayerMachine)
  (incoming : network.InterfaceInfos) : MachineLinkLayerOp :=
  {| machine := machine;
     incoming := incoming;
     processedDevs := ∅;
     processedAddrs := ∅;
     existingDevs := [];
     existingAddrs := [] |}.

Definition Incoming : M network.InterfaceInfos := gets incoming.

Definition ExistingDevices : M (list LinkLayerDevice) := gets existingDevs.

Definition ExistingAddresses : M (list LinkLayerAddress) := gets existingAddrs.

Definition PopulateExistingDevices : M (option errors.error) :=
  m ← gets machine;
  let '(devs, err) := AllLinkLayerDevices m in
  modify (set_existingDevs devs);;
  mret (errors.Trace err).

Definition PopulateExistingAddresses : M (option errors.error) :=
  m ← gets machine;
  let '(addrs, err) := AllAddresses m in
  modify (set_existingAddrs addrs);;
  mret (errors.Trace err).

Definition MatchingIncoming (dev : LinkLayerDevice)
  : M (option network.InterfaceInfo) :=
  inc ← gets incoming;
  let matches := network.GetByHardwareAddress inc (MACAddress dev) in
  if (0 <? length matches)%nat then mret (matches !! 0%nat)
  else mret None.

(** Modelled from the spec: [networkAddressStateArgsForHWAddr], a function
    of this package whose body is missing here.  It returns all address
    observations attached to any incoming interface sharing the hardware
    address. *)
Definition networkAddressStateArgsForHWAddr (devs : network.InterfaceInfos)
  (hwAddr : string) : list state.LinkLayerDeviceAddress :=
  fold_left
    (fun res dev => res ++ network.Addresses dev)
    (network.GetByHardwareAddress devs hwAddr) [].

Definition MatchingIncomingAddrs (dev : LinkLayerDevice)
  : M (list state.LinkLayerDeviceAddress) :=
  inc ← Incoming;
  mret (networkAddressStateArgsForHWAddr inc (MACAddress dev)).

Definition DeviceAddresses (dev : LinkLayerDevice)
  : M (list LinkLayerAddress) :=
  existing ← gets existingAddrs;
  mret (fold_left
          (fun addrs addr =>
             if String.eqb (DeviceName addr) (Name dev)
             then addrs ++ [addr] else addrs)
          existing []).

Definition MarkDevProcessed (dev : LinkLayerDevice) : M unit :=
  modify (fun o => set_processedDevs (Add (MACAddress dev) (processedDevs o)) o).

Definition IsDevProcessed (dev : network.InterfaceInfo) : M bool :=
  devs ← gets processedDevs;
  mret (Contains devs (network.MACAddress dev)).

Definition MarkAddrProcessed (ipAddress : string) : M unit :=
  modify (fun o => set_processedAddrs (Add ipAddress (processedAddrs o)) o).

Definition Done (err : option errors.error) : M (option errors.error) :=
  mret err.

(** A pass marks devices and addresses as it meets them; a sequence of
    marking calls on one operation is a list of marks. *)
Inductive mark : Type :=
| MarkDev (dev : LinkLayerDevice)
| MarkAddr (ipAddress : string).

Definition run_mark (k : mark) : M unit :=
  match k with
  | MarkDev dev => MarkDevProcessed dev
  | MarkAddr ipAddress => MarkAddrProcessed ipAddress
  end.

Fixpoint run_marks (ks : list mark) : M unit :=
  match ks with
  | [] => mret tt
  | k :: ks' => run_mark k;; run_marks ks'
  end.

(** ** Sample data *)

Definition sample_machine : LinkLayerMachine :=
  {| Id := "0"%string;
     AllLinkLayerDevices := ([], None);
     AllAddresses := ([], None) |}.

Definition sample_dev_upper : LinkLayerDevice :=
  {| ID := "m#0#d#eth0"%string;
     MACAddress := "AA:BB:CC:DD:EE:FF"%string;
     Name := "eth0"%string;
     ProviderID := ""%string;
     ParentID := ""%string |}.

Definition sample_iface_lower : network.InterfaceInfo :=
  {| network.MACAddress := "aa:bb:cc:dd:ee:ff"%string;
     network.InterfaceName := "eth0"%string;
     network.ParentInterfaceName := ""%string;
     network.Addresses := [] |}.

Definition sample_dev_eth1 : LinkLayerDevice :=
  {| ID := "m#0#d#eth1"%string;
     MACAddress := "aa:bb:cc:dd:ee:00"%string;
     Name := "eth1"%string;
     ProviderID := ""%string;
     ParentID := ""%string |}.

Definition sample_iface_upper : network.InterfaceInfo :=
  {| network.MACAddress := "AA:BB:CC:DD:EE:FF"%string;
     network.InterfaceName := "eth0"%string;
     network.ParentInterfaceName := ""%string;
     network.Addresses :=
       [ {| network.Value := "10.0.0.5"%string;
            network.AddrOrigin := "machine"%string;
            network.ProviderID := ""%string;
            network.ProviderNetworkID := ""%string;
            network.ProviderSubnetID := ""%string |};
         {| network.Value := "10.0.0.6"%string;
            network.AddrOrigin := "machine"%string;
            network.ProviderID := ""%string;
            network.ProviderNetworkID := ""%string;
            network.ProviderSubnetID := ""%string |} ] |}.

Definition sample_iface_dup : network.InterfaceInfo :=
  {| network.MACAddress := "AA:BB:CC:DD:EE:FF"%string;
     network.InterfaceName := "br-eth0"%string;
     network.ParentInterfaceName := ""%string;
     network.Addresses :=
       [ {| network.Value := "192.168.1.2"%string;
            network.AddrOrigin := "provider"%string;
            network.ProviderID := "p-1"%string;
            network.ProviderNetworkID := "net-1"%string;
            network.ProviderSubnetID := "sub-1"%string |} ] |}.

Definition sample_iface_other : network.InterfaceInfo :=
  {| network.MACAddress := "00:11:22:33:44:55"%string;
     network.InterfaceName := "eth9"%string;
     network.ParentInterfaceName := ""%string;
     network.Addresses := [] |}.

Definition sample_addr (name value : string) : LinkLayerAddress :=
  {| DeviceName := name; Value := value; Origin := "machine"%string |}.

Definition sample_op : MachineLinkLayerOp :=
  set_existingAddrs
    [ sample_addr "eth0" "10.0.0.5"; sample_addr "eth1" "10.0.1.1";
      sample_addr "eth0" "10.0.0.6"; sample_addr "Eth0" "10.0.0.7" ]
    (NewMachineLinkLayerOp sample_machine
       [ sample_iface_other; sample_iface_upper; sample_iface_dup ]).

(** ** charmhub: refresh requests *)

Module transport.

(** The request and response types of charmhub/transport, with the fields
    the refresh configurations fill in or read.  A Go pointer field is an
    [option], [None] being [nil]. *)
Record RefreshRequestPlatform : Type := {
  PlatformOS : string;
  PlatformSeries : string;
  PlatformArchitecture : string
}.

Record RefreshRequestContext : Type := {
  ContextInstanceKey : string;
  ContextID : string;
  ContextRevision : Z;
  ContextPlatform : RefreshRequestPlatform;
  TrackingChannel : string
}.

Record RefreshRequestAction : Type := {
  Action : string;
  ActionInstanceKey : string;
  ActionID : option string;
  ActionName : option string;
  ActionRevision : option Z;
  ActionChannel : option string;
  ActionPlatform : option RefreshRequestPlatform
}.

Record RefreshRequest : Type := {
  Context : list RefreshRequestContext;
  Actions : list RefreshRequestAction
}.

Record RefreshResponse : Type := {
  InstanceKey : string
}.

End transport.

Module charmhub.

(** Errors as this package builds them with juju/errors: [NotValid] is the
    error of [errors.NotValidf] with its message, [Traced] the result of
    [errors.Trace], [Annotated] that of [errors.Annotatef]; [Other] is an
    error coming from elsewhere. *)
Inductive error : Type :=
| NotValid (msg : string)
| Traced (cause : error)
| Annotated (cause : error) (msg : string)
| Other (msg : string).

(** [errors.NotValidf] of a message, its format already expanded. *)
Definition NotValidf (format : string) : error :=
  NotValid (format +:+ " not valid").

(** [errors.Trace] on a Go error value. *)
Definition Trace (err : option error) : option error :=
  match err with
  | None => None
  | Some e => Some (Traced e)
  end.

(** [errors.IsNotValid]: the cause below traces and annotations. *)
Fixpoint IsNotValid (e : error) : bool :=
  match e with
  | NotValid _ => true
  | Traced c => IsNotValid c
  | Annotated c _ => IsNotValid c
  | Other _ => false
  end.

Definition InstallAction : string := "install".
Definition DownloadAction : string := "download".
Definition RefreshAction : string := "refresh".

Abbreviation Headers := (gmap string (list string)).

Record RefreshPlatform : Type := {
  Architecture : string;
  OS : string;
  Series : string
}.

Definition nonEmpty (s : string) : bool := negb (String.eqb s "").

Definition RefreshPlatform_String (p : RefreshPlatform) : string :=
  let path := Architecture p in
  if nonEmpty (Series p) then
    let path := if nonEmpty (OS p) then path +:+ "/" +:+ OS p else path in
    path +:+ "/" +:+ Series p
  else path.

(** [strings.Join]. *)
Fixpoint Join (elems : list string) (sep : string) : string :=
  match elems with
  | [] => ""
  | [e] => e
  | e :: rest => e +:+ sep +:+ Join rest sep
  end.

(** The verb [%q] on a string none of whose bytes needs escaping. *)
Definition quoted (s : string) : string :=
  String (ascii_of_nat 34) (s +:+ String (ascii_of_nat 34) EmptyString).

(** The logging of the error has no effect on the result. *)
Definition validatePlatform (rp : RefreshPlatform) : option error :=
  let msg := [] in
  let msg := if String.eqb (Architecture rp) "all"
             then msg ++ ["Architecture " +:+ quoted (Architecture rp)]
             else msg in
  let msg := if String.eqb (OS rp) "all"
             then msg ++ ["OS " +:+ quoted (OS rp)] else msg in
  let msg := if String.eqb (Series rp) "all"
             then msg ++ ["Series " +:+ quoted (Series rp)] else msg in
  if (0 <? length msg)%nat
  then Trace (Some (NotValidf (Join msg ", ")))
  else None.

Definition constructMetadataHeaders (platform : RefreshPlatform) : Headers :=
  let headers : Headers := ∅ in
  let headers := if nonEmpty (Architecture platform)
                 then <["arch" := [Architecture platform]]> headers
                 else headers in
  let headers := if nonEmpty (OS platform)
                 then <["os" := [OS platform]]> headers else headers in
  let headers := if nonEmpty (Series platform)
                 then <["series" := [Series platform]]> headers
                 else headers in
  headers.

(** [set.NewStrings(v...).SortedValues()]: the distinct strings of [v] in
    the byte-wise order of [sort.Strings]. *)
Definition SortedValues (s : gset string) : list string :=
  merge_sort String.le (elements s).

Definition NewStrings (v : list string) : gset string := list_to_set v.

(** [for k, v := range m { result[k] = append(result[k], v...) }]; a
    missing key reads as the nil slice. *)
Definition appendValues (m : Headers) (result : Headers) : Headers :=
  map_fold
    (fun k v (result : Headers) =>
       <[k := default [] (result !! k) ++ v]> result)
    result m.

Definition composeMetadataHeaders (a b : Headers) : Headers :=
  let result : Headers := ∅ in
  let result := appendValues a result in
  let result := appendValues b result in
  (fun v => SortedValues (NewStrings v)) <$> result.

(** The interface [RefreshConfig]: what [Build] returns and what [Ensure]
    answers to a list of responses.  [String] formats pointer values and is
    left out. *)
Record RefreshConfig : Type := {
  Build : transport.RefreshRequest * Headers * option error;
  Ensure : list transport.RefreshResponse -> option error
}.

Record refreshOne : Type := {
  refreshOne_ID : string;
  refreshOne_Revision : Z;
  refreshOne_Channel : string;
  refreshOne_Platform : RefreshPlatform;
  refreshOne_instanceKey : string
}.

Definition requestPlatform (p : RefreshPlatform)
  : transport.RefreshRequestPlatform :=
  {| transport.PlatformOS := OS p;
     transport.PlatformSeries := Series p;
     transport.PlatformArchitecture := Architecture p |}.

Definition refreshOne_Build (c : refreshOne)
  : transport.RefreshRequest * Headers * option error :=
  ({| transport.Context :=
        [ {| transport.ContextInstanceKey := refreshOne_instanceKey c;
             transport.ContextID := refreshOne_ID c;
             transport.ContextRevision := refreshOne_Revision c;
             transport.ContextPlatform :=
               requestPlatform (refreshOne_Platform c);
             transport.TrackingChannel := refreshOne_Channel c |} ];
      transport.Actions :=
        [ {| transport.Action := RefreshAction;
             transport.ActionInstanceKey := refreshOne_instanceKey c;
             transport.ActionID := Some (refreshOne_ID c);
             transport.ActionName := None;
             transport.ActionRevision := None;
             transport.ActionChannel := None;
             transport.ActionPlatform := None |} ] |},
   constructMetadataHeaders (refreshOne_Platform c), None).

(** The loop of both [Ensure] methods: is there a response with the key? *)
Definition hasInstanceKey (responses : list transport.RefreshResponse)
  (key : string) : bool :=
  existsb (fun resp => String.eqb (transport.InstanceKey resp) key) responses.

Definition refreshOne_Ensure (c : refreshOne)
  (responses : list transport.RefreshResponse) : option error :=
  if hasInstanceKey responses (refreshOne_instanceKey c) then None
  else Some (NotValidf "refresh action key").

Definition refreshOne_config (c : refreshOne) : RefreshConfig :=
  {| Build := refreshOne_Build c; Ensure := refreshOne_Ensure c |}.

Record executeOne : Type := {
  executeOne_ID : string;
  executeOne_Name : string;
  executeOne_Revision : option Z;
  executeOne_Channel : option string;
  executeOne_Platform : RefreshPlatform;
  executeOne_action : string;
  executeOne_instanceKey : string
}.

Definition executeOne_Build (c : executeOne)
  : transport.RefreshRequest * Headers * option error :=
  let id := if nonEmpty (executeOne_ID c)
            then Some (executeOne_ID c) else None in
  let name := if nonEmpty (executeOne_Name c)
              then Some (executeOne_Name c) else None in
  ({| transport.Context := [];
      transport.Actions :=
        [ {| transport.Action := executeOne_action c;
             transport.ActionInstanceKey := executeOne_instanceKey c;
             transport.ActionID := id;
             transport.ActionName := name;
             transport.ActionRevision := executeOne_Revision c;
             transport.ActionChannel := executeOne_Channel c;
             transport.ActionPlatform :=
               Some (requestPlatform (executeOne_Platform c)) |} ] |},
   constructMetadataHeaders (executeOne_Platform c), None).

Definition executeOne_Ensure (c : executeOne)
  (responses : list transport.RefreshResponse) : option error :=
  if hasInstanceKey responses (executeOne_instanceKey c) then None
  else Some (NotValidf (executeOne_action c +:+ " action key")).

Definition executeOne_config (c : executeOne) : RefreshConfig :=
  {| Build := executeOne_Build c; Ensure := executeOne_Ensure c |}.

(** The constructors take the outcome of [utils.NewUUID()], the string of
    the identifier and an error, as their first argument; it is looked at
    only once the platform is valid. *)
Definition withInstanceKey (newUUID : string * option error)
  (platform : RefreshPlatform) (mk : string -> RefreshConfig)
  : option RefreshConfig * option error :=
  match validatePlatform platform with
  | Some err => (None, Trace (Some err))
  | None =>
      match snd newUUID with
      | Some err => (None, Trace (Some err))
      | None => (Some (mk (fst newUUID)), None)
      end
  end.

Definition RefreshOne (newUUID : string * option error) (id : string)
  (revision : Z) (channel : string) (platform : RefreshPlatform)
  : option RefreshConfig * option error :=
  withInstanceKey newUUID platform (fun uuid =>
    refreshOne_config
      {| refreshOne_instanceKey := uuid;
         refreshOne_ID := id;
         refreshOne_Revision := revision;
         refreshOne_Channel := channel;
         refreshOne_Platform := platform |}).

Definition InstallOneFromRevision (newUUID : string * option error)
  (name : string) (revision : Z) (platform : RefreshPlatform)
  : option RefreshConfig * option error :=
  withInstanceKey newUUID platform (fun uuid =>
    executeOne_config
      {| executeOne_action := InstallAction;
         executeOne_instanceKey := uuid;
         executeOne_ID := "";
         executeOne_Name := name;
         executeOne_Revision := Some revision;
         executeOne_Channel := None;
         executeOne_Platform := platform |}).

Definition InstallOneFromChannel (newUUID : string * option error)
  (name : string) (channel : string) (platform : RefreshPlatform)
  : option RefreshConfig * option error :=
  withInstanceKey newUUID platform (fun uuid =>
    executeOne_config
      {| executeOne_action := InstallAction;
         executeOne_instanceKey := uuid;
         executeOne_ID := "";
         executeOne_Name := name;
         executeOne_Revision := None;
         executeOne_Channel := Some channel;
         executeOne_Platform := platform |}).

Definition DownloadOne (newUUID : string * option error) (id : string)
  (revision : Z) (channel : string) (platform : RefreshPlatform)
  : option RefreshConfig * option error :=
  withInstanceKey newUUID platform (fun uuid =>
    executeOne_config
      {| executeOne_action := DownloadAction;
         executeOne_instanceKey := uuid;
         executeOne_ID := id;
         executeOne_Name := "";
         executeOne_Revision := Some revision;
         executeOne_Channel := Some channel;
         executeOne_Platform := platform |}).

Definition DownloadOneFromRevision (newUUID : string * option error)
  (id : string) (revision : Z) (platform : RefreshPlatform)
  : option RefreshConfig * option error :=
  withInstanceKey newUUID platform (fun uuid =>
    executeOne_config
      {| executeOne_action := DownloadAction;
         executeOne_instanceKey := uuid;
         executeOne_ID := id;
         executeOne_Name := "";
         executeOne_Revision := Some revision;
         executeOne_Channel := None;
         executeOne_Platform := platform |}).

Definition DownloadOneFromChannel (newUUID : string * option error)
  (id : string) (channel : string) (platform : RefreshPlatform)
  : option RefreshConfig * option error :=
  withInstanceKey newUUID platform (fun uuid =>
    executeOne_config
      {| executeOne_action := DownloadAction;
         executeOne_instanceKey := uuid;
         executeOne_ID := id;
         executeOne_Name := "";
         executeOne_Revision := None;
         executeOne_Channel := Some channel;
         executeOne_Platform := platform |}).

Definition emptyRequest : transport.RefreshRequest :=
  {| transport.Context := []; transport.Actions := [] |}.

(** The loop of [refreshMany.Build] from the configurations left, the
    request and the headers composed so far. *)
Fixpoint refreshMany_Build_from (configs : list RefreshConfig)
  (result : transport.RefreshRequest) (composedHeaders : Headers)
  : transport.RefreshRequest * Headers * option error :=
  match configs with
  | [] => (result, composedHeaders, None)
  | config :: rest =>
      let '(req, headers, err) := Build config in
      match err with
      | Some err => (emptyRequest, ∅, Trace (Some err))
      | None =>
          refreshMany_Build_from rest
            {| transport.Context :=
                 transport.Context result ++ transport.Context req;
               transport.Actions :=
                 transport.Actions result ++ transport.Actions req |}
            (composeMetadataHeaders composedHeaders headers)
      end
  end.

Definition refreshMany_Build (configs : list RefreshConfig)
  : transport.RefreshRequest * Headers * option error :=
  refreshMany_Build_from configs emptyRequest ∅.

Fixpoint refreshMany_Ensure (configs : list RefreshConfig)
  (responses : list transport.RefreshResponse) : option error :=
  match configs with
  | [] => None
  | config :: rest =>
      match Ensure config responses with
      | Some err => Some (Annotated err "missing response")
      | None => refreshMany_Ensure rest responses
      end
  end.

Definition RefreshMany (configs : list RefreshConfig) : RefreshConfig :=
  {| Build := refreshMany_Build configs;
     Ensure := refreshMany_Ensure configs |}.

End charmhub.

(** The three components of what [Build] returns. *)
Definition buildRequest (c : charmhub.RefreshConfig) : transport.RefreshRequest :=
  fst (fst (charmhub.Build c)).
Definition buildHeaders (c : charmhub.RefreshConfig) : charmhub.Headers :=
  snd (fst (charmhub.Build c)).
Definition buildError (c : charmhub.RefreshConfig) : option charmhub.error :=
  snd (charmhub.Build c).

(** The configurations that the three implementations of [RefreshConfig] in
    this package give rise to. *)
Inductive packageConfig : charmhub.RefreshConfig -> Prop :=
| package_refreshOne (c : charmhub.refreshOne) :
    packageConfig (charmhub.refreshOne_config c)
| package_executeOne (c : charmhub.executeOne) :
    packageConfig (charmhub.executeOne_config c)
| package_refreshMany (cs : list charmhub.RefreshConfig) :
    packageConfigs cs -> packageConfig (charmhub.RefreshMany cs)
with packageConfigs : list charmhub.RefreshConfig -> Prop :=
| package_nil : packageConfigs []
| package_cons (c : charmhub.RefreshConfig) (cs : list charmhub.RefreshConfig) :
    packageConfig c -> packageConfigs cs -> packageConfigs (c :: cs).

Scheme packageConfig_mut := Minimality for packageConfig Sort Prop
  with packageConfigs_mut := Minimality for packageConfigs Sort Prop.

(** The results of the six constructors on the same inputs. *)
Definition constructed (newUUID : string * option charmhub.error)
  (id name : string) (revision : Z) (channel : string)
  (platform : charmhub.RefreshPlatform)
  : list (option charmhub.RefreshConfig * option charmhub.error) :=
  [ charmhub.RefreshOne newUUID id revision channel platform;
    charmhub.InstallOneFromRevision newUUID name revision platform;
    charmhub.InstallOneFromChannel newUUID name channel platform;
    charmhub.DownloadOne newUUID id revision channel platform;
    charmhub.DownloadOneFromRevision newUUID id revision platform;
    charmhub.DownloadOneFromChannel newUUID id channel platform ].

(** The actions and contexts of the request built by the configuration a
    constructor returned, none if it returned no configuration. *)
Definition constructedActions
  (r : option charmhub.RefreshConfig * option charmhub.error)
  : list transport.RefreshRequestAction :=
  match fst r with
  | Some c => transport.Actions (buildRequest c)
  | None => []
  end.

Definition constructedContexts
  (r : option charmhub.RefreshConfig * option charmhub.error)
  : list transport.RefreshRequestContext :=
  match fst r with
  | Some c => transport.Context (buildRequest c)
  | None => []
  end.

(** A string sent only when it is not empty. *)
Definition optional (s : string) : option string :=
  if charmhub.nonEmpty s then Some s else None.

Definition sample_platform : charmhub.RefreshPlatform :=
  {| charmhub.Architecture := "amd64"; charmhub.OS := "ubuntu";
     charmhub.Series := "focal" |}.

Definition sample_platform_arm : charmhub.RefreshPlatform :=
  {| charmhub.Architecture := "arm64"; charmhub.OS := "ubuntu";
     charmhub.Series := "" |}.

Definition sample_refresh : charmhub.RefreshConfig :=
  charmhub.refreshOne_config
    {| charmhub.refreshOne_ID := "charm-1";
       charmhub.refreshOne_Revision := 7;
       charmhub.refreshOne_Channel := "latest/stable";
       charmhub.refreshOne_Platform := sample_platform;
       charmhub.refreshOne_instanceKey := "key-1" |}.

Definition sample_install : charmhub.RefreshConfig :=
  charmhub.executeOne_config
    {| charmhub.executeOne_ID := "";
       charmhub.executeOne_Name := "wordpress";
       charmhub.executeOne_Revision := None;
       charmhub.executeOne_Channel := Some "latest/edge"%string;
       charmhub.executeOne_Platform := sample_platform_arm;
       charmhub.executeOne_action := charmhub.InstallAction;
       charmhub.executeOne_instanceKey := "key-2" |}.

Definition sample_nested : charmhub.RefreshConfig :=
  charmhub.RefreshMany [sample_refresh; charmhub.RefreshMany [sample_install]].

(** An implementation of the interface whose [Build] fails. *)
Definition sample_failing : charmhub.RefreshConfig :=
  {| charmhub.Build :=
       (charmhub.emptyRequest, ∅, Some (charmhub.Other "cannot build"));
     charmhub.Ensure := fun _ => None |}.

(** ** commands: the API connections of [SSHContainer] *)

Module commands.

(** A connection root and the clients made from it.  A client interface
    value is an [option], [None] being [nil]; [NewClient] of a root is
    never nil. *)
Definition APIRoot := string.

Inductive ExecClientGetter : Type :=
| NewForJujuCloudCloudSpec
| OtherGetter (name : string).

(** What the methods of [modelcmd.ModelCommandBase] used here return: the
    model UUID of the model details with an error, and the two roots with
    an error. *)
Record ModelCommandBase : Type := {
  ModelDetails : string * option errors.error;
  NewControllerAPIRoot : APIRoot * option errors.error;
  NewAPIRoot : APIRoot * option errors.error
}.

Record SSHContainer : Type := {
  remote : bool;
  target : string;
  args : list string;
  modelUUID : string;
  cloudCredentialAPI : option APIRoot;
  modelAPI : option APIRoot;
  applicationAPI : option APIRoot;
  execClientGetter : option ExecClientGetter
}.

Definition GetTarget (c : SSHContainer) : string := target c.

Definition SetTarget (target' : string) (c : SSHContainer) : SSHContainer :=
  {| remote := remote c; target := target'; args := args c;
     modelUUID := modelUUID c; cloudCredentialAPI := cloudCredentialAPI c;
     modelAPI := modelAPI c; applicationAPI := applicationAPI c;
     execClientGetter := execClientGetter c |}.

Definition GetArgs (c : SSHContainer) : list string := args c.

Definition SetArgs (args' : list string) (c : SSHContainer) : SSHContainer :=
  {| remote := remote c; target := target c; args := args';
     modelUUID := modelUUID c; cloudCredentialAPI := cloudCredentialAPI c;
     modelAPI := modelAPI c; applicationAPI := applicationAPI c;
     execClientGetter := execClientGetter c |}.

Definition set_modelUUID (uuid : string) (c : SSHContainer) : SSHContainer :=
  {| remote := remote c; target := target c; args := args c;
     modelUUID := uuid; cloudCredentialAPI := cloudCredentialAPI c;
     modelAPI := modelAPI c; applicationAPI := applicationAPI c;
     execClientGetter := execClientGetter c |}.

Definition set_controllerClients (cAPI : APIRoot) (c : SSHContainer)
  : SSHContainer :=
  {| remote := remote c; target := target c; args := args c;
     modelUUID := modelUUID c; cloudCredentialAPI := Some cAPI;
     modelAPI := Some cAPI; applicationAPI := applicationAPI c;
     execClientGetter := Some NewForJujuCloudCloudSpec |}.

Definition set_applicationAPI (v : option APIRoot) (c : SSHContainer)
  : SSHContainer :=
  {| remote := remote c; target := target c; args := args c;
     modelUUID := modelUUID c; cloudCredentialAPI := cloudCredentialAPI c;
     modelAPI := modelAPI c; applicationAPI := v;
     execClientGetter := execClientGetter c |}.

Definition set_cloudCredentialAPI (v : option APIRoot) (c : SSHContainer)
  : SSHContainer :=
  {| remote := remote c; target := target c; args := args c;
     modelUUID := modelUUID c; cloudCredentialAPI := v;
     modelAPI := modelAPI c; applicationAPI := applicationAPI c;
     execClientGetter := execClientGetter c |}.

Definition set_modelAPI (v : option APIRoot) (c : SSHContainer)
  : SSHContainer :=
  {| remote := remote c; target := target c; args := args c;
     modelUUID := modelUUID c; cloudCredentialAPI := cloudCredentialAPI c;
     modelAPI := v; applicationAPI := applicationAPI c;
     execClientGetter := execClientGetter c |}.

(** Each method returns its error with the container as it leaves it. *)
Definition initAPIClient (mc : ModelCommandBase) (c : SSHContainer)
  : option errors.error * SSHContainer :=
  let '(uuid, err) := ModelDetails mc in
  match err with
  | Some e => (Some e, c)
  | None =>
      let c := set_modelUUID uuid c in
      let '(cAPI, err) := NewControllerAPIRoot mc in
      match err with
      | Some e => (errors.Trace (Some e), c)
      | None =>
          let c := set_controllerClients cAPI c in
          let '(root, err) := NewAPIRoot mc in
          match err with
          | Some e => (errors.Trace (Some e), c)
          | None => (None, set_applicationAPI (Some root) c)
          end
      end
  end.

Definition isSet (api : option APIRoot) : bool :=
  match api with Some _ => true | None => false end.

Definition ensureAPIClient (mc : ModelCommandBase) (c : SSHContainer)
  : option errors.error * SSHContainer :=
  if isSet (cloudCredentialAPI c) || isSet (modelAPI c)
     || isSet (applicationAPI c)
  then (None, c)
  else let '(err, c) := initAPIClient mc c in (errors.Trace err, c).

Definition initRun (mc : ModelCommandBase) (c : SSHContainer)
  : option errors.error * SSHContainer :=
  let '(err, c) := ensureAPIClient mc c in
  match err with
  | Some e => (errors.Trace (Some e), c)
  | None => (None, c)
  end.

(** Closing a client acts on the connection, not on the container. *)
Definition cleanupRun (c : SSHContainer) : SSHContainer :=
  let c := if isSet (cloudCredentialAPI c)
           then set_cloudCredentialAPI None c else c in
  let c := if isSet (modelAPI c) then set_modelAPI None c else c in
  let c := if isSet (applicationAPI c)
           then set_applicationAPI None c else c in
  c.

End commands.

Definition sample_container : commands.SSHContainer :=
  {| commands.remote := false;
     commands.target := "mariadb-k8s/0";
     commands.args := ["hostname"%string];
     commands.modelUUID := "";
     commands.cloudCredentialAPI := None;
     commands.modelAPI := None;
     commands.applicationAPI := None;
     commands.execClientGetter := None |}.

Definition sample_command : commands.ModelCommandBase :=
  {| commands.ModelDetails := ("deadbeef-0000"%string, None);
     commands.NewControllerAPIRoot := ("controller-root"%string, None);
     commands.NewAPIRoot := ("model-root"%string, None) |}.

Definition sample_command_no_root : commands.ModelCommandBase :=
  {| commands.ModelDetails := ("deadbeef-0000"%string, None);
     commands.NewControllerAPIRoot := ("controller-root"%string, None);
     commands.NewAPIRoot := (""%string, Some (errors.New "no api root")) |}.

(** ** Runs on the sample data *)

Example MatchingIncoming_sample :
  eval (MatchingIncoming sample_dev_upper) sample_op = Some sample_iface_upper.
Proof. reflexivity. Qed.

Example MatchingIncoming_sample_none :
  eval (MatchingIncoming sample_dev_eth1) sample_op = None.
Proof. reflexivity. Qed.

Example MatchingIncomingAddrs_sample :
  map network.Value (eval (MatchingIncomingAddrs sample_dev_upper) sample_op)
  = [ "10.0.0.5"; "10.0.0.6"; "192.168.1.2" ]%string.
Proof. reflexivity. Qed.

Example DeviceAddresses_sample :
  map Value (eval (DeviceAddresses sample_dev_upper) sample_op)
  = [ "10.0.0.5"; "10.0.0.6" ]%string.
Proof. reflexivity. Qed.

Example Populate_sample_failure :
  let m := {| Id := "1"%string;
              AllLinkLayerDevices := ([], Some (errors.New "read failed"));
              AllAddresses := ([], None) |} in
  eval PopulateExistingDevices (NewMachineLinkLayerOp m [])
  = Some (errors.Traced (errors.New "read failed"))
  /\ eval PopulateExistingAddresses (NewMachineLinkLayerOp m []) = None.
Proof. split; reflexivity. Qed.

(** ** Running methods *)

Section Running.

Context {A B : Type}.

Lemma eval_bind (m : M A) (f : A -> M B) o :
  eval (m ≫= f) o = eval (f (eval m o)) (exec m o).
Proof. unfold eval, exec, mbind, M_bind. destruct (m o); reflexivity. Qed.

Lemma exec_bind (m : M A) (f : A -> M B) o :
  exec (m ≫= f) o = exec (f (eval m o)) (exec m o).
Proof. unfold eval, exec, mbind, M_bind. destruct (m o); reflexivity. Qed.

End Running.

(** ** Scanning loops *)

Section Scans.

Context {A B : Type}.

(** A loop that appends the accepted elements builds the filtered list. *)
Lemma collect_filter (p : A -> bool) (l acc : list A) :
  fold_left (fun res x => if p x then res ++ [x] else res) l acc
  = acc ++ List.filter p l.
Proof.
  revert acc. induction l as [|x l IH]; intros acc; simpl.
  - symmetry. apply app_nil_r.
  - rewrite IH. destruct (p x); [|reflexivity].
    rewrite <- app_assoc. reflexivity.
Qed.

(** A loop that appends what each element carries concatenates them. *)
Lemma collect_flat_map (f : A -> list B) (l : list A) (acc : list B) :
  fold_left (fun res x => res ++ f x) l acc = acc ++ List.flat_map f l.
Proof.
  revert acc. induction l as [|x l IH]; intros acc; simpl.
  - symmetry. apply app_nil_r.
  - rewrite IH, <- app_assoc. reflexivity.
Qed.

(** The head of a filtered list is the first accepted element. *)
Lemma filter_head_first (p : A -> bool) (l : list A) :
  match List.filter p l with
  | i :: _ =>
      exists pre post,
        l = pre ++ i :: post /\ p i = true /\
        Forall (fun j => p j = false) pre
  | [] => Forall (fun j => p j = false) l
  end.
Proof.
  induction l as [|x l IH]; simpl.
  - constructor.
  - destruct (p x) eqn:Hx.
    + exists [], l. repeat split; [exact Hx | constructor].
    + destruct (List.filter p l) as [|i rest].
      * constructor; assumption.
      * destruct IH as (pre & post & -> & Hi & Hpre).
        exists (x :: pre), post. repeat split; [exact Hi|].
        constructor; assumption.
Qed.

End Scans.

(** ** Hardware-address comparison *)

Lemma hwAddrEqual_spec a b :
  network.hwAddrEqual a b = true <-> network.ToLower a = network.ToLower b.
Proof. unfold network.hwAddrEqual. apply String.eqb_eq. Qed.

Lemma hwAddrEqual_refl a : network.hwAddrEqual a a = true.
Proof. apply hwAddrEqual_spec. reflexivity. Qed.

Lemma GetByHardwareAddress_filter s hwAddr :
  network.GetByHardwareAddress s hwAddr
  = List.filter
      (fun dev => network.hwAddrEqual (network.MACAddress dev) hwAddr) s.
Proof.
  unfold network.GetByHardwareAddress.
  rewrite collect_filter. reflexivity.
Qed.

Lemma MatchingIncoming_head dev o :
  MatchingIncoming dev o
  = (head (network.GetByHardwareAddress (incoming o) (MACAddress dev)), o).
Proof.
  unfold MatchingIncoming, mbind, M_bind, gets, mret, M_ret.
  destruct (network.GetByHardwareAddress (incoming o) (MACAddress dev));
    reflexivity.
Qed.

(** ** Identity matching *)

Lemma MatchingIncoming_scan (dev : LinkLayerDevice) (o : MachineLinkLayerOp) :
  let same := fun j : network.InterfaceInfo =>
                network.hwAddrEqual (network.MACAddress j) (MACAddress dev) in
  eval (MatchingIncoming dev) o = head (List.filter same (incoming o)).
Proof.
  intros same. unfold eval. rewrite MatchingIncoming_head. simpl.
  rewrite GetByHardwareAddress_filter. reflexivity.
Qed.

(** C1: for every known device and every incoming collection,
    [MatchingIncoming] yields at most one interface.  When it yields one,
    that interface is the first of the incoming collection, in observation
    order, whose hardware address equals the MAC address of the device;
    it yields nil exactly when no incoming interface has the hardware
    address of the device.  Hardware addresses are compared with the
    comparison of [GetByHardwareAddress]. *)
Theorem MatchingIncoming_first_match (dev : LinkLayerDevice)
  (o : MachineLinkLayerOp) :
  let same := fun j : network.InterfaceInfo =>
                network.hwAddrEqual (network.MACAddress j) (MACAddress dev) in
  match eval (MatchingIncoming dev) o with
  | Some i =>
      exists pre post,
        incoming o = pre ++ i :: post /\ same i = true /\
        Forall (fun j => same j = false) pre
  | None => Forall (fun j => same j = false) (incoming o)
  end
  /\ (eval (MatchingIncoming dev) o = None
      <-> Forall (fun j => same j = false) (incoming o)).
Proof.
  intros same. rewrite MatchingIncoming_scan. fold same.
  pose proof (filter_head_first same (incoming o)) as H.
  destruct (List.filter same (incoming o)) as [|i rest] eqn:Hf; simpl.
  - split; [exact H|]. split; [intros _; exact H | reflexivity].
  - split; [exact H|]. split; [discriminate|].
    intros Hall. exfalso.
    assert (Hin : In i (List.filter same (incoming o)))
      by (rewrite Hf; left; reflexivity).
    apply filter_In in Hin as [Hin Hi].
    rewrite Forall_forall in Hall.
    assert (Hin' : i ∈ incoming o) by (apply list_elem_of_In; exact Hin).
    specialize (Hall i Hin'). simpl in Hall. congruence.
Qed.

(** C3: for every known device, [MatchingIncomingAddrs] returns the address
    observations of all incoming interfaces whose hardware address equals
    the MAC address of the device, interface after interface in
    observation order: an observation is returned exactly when it is
    attached to some such interface, not only to the first one. *)
Theorem MatchingIncomingAddrs_all (dev : LinkLayerDevice)
  (o : MachineLinkLayerOp) :
  let same := fun j : network.InterfaceInfo =>
                network.hwAddrEqual (network.MACAddress j) (MACAddress dev) in
  eval (MatchingIncomingAddrs dev) o
  = List.flat_map network.Addresses (List.filter same (incoming o))
  /\ forall a,
      In a (eval (MatchingIncomingAddrs dev) o)
      <-> exists i, In i (incoming o) /\ same i = true
                    /\ In a (network.Addresses i).
Proof.
  intros same.
  assert (Heq : eval (MatchingIncomingAddrs dev) o
                = List.flat_map network.Addresses
                    (List.filter same (incoming o))).
  { unfold eval, MatchingIncomingAddrs, Incoming, mbind, M_bind, gets,
      mret, M_ret. simpl.
    unfold networkAddressStateArgsForHWAddr.
    rewrite collect_flat_map, GetByHardwareAddress_filter. reflexivity. }
  split; [exact Heq|].
  intros a. rewrite Heq, in_flat_map. split.
  - intros (i & Hin & Ha). apply filter_In in Hin as [Hin Hi]. eauto.
  - intros (i & Hin & Hi & Ha). exists i. split; [|exact Ha].
    apply filter_In. split; assumption.
Qed.

(** C8: for every snapshot and every device, [DeviceAddresses] returns the
    existing addresses whose device name is the name of the device, as
    exact strings, in the order of the snapshot, and no other address. *)
Theorem DeviceAddresses_filter (dev : LinkLayerDevice)
  (o : MachineLinkLayerOp) :
  eval (DeviceAddresses dev) o
  = List.filter (fun addr => String.eqb (DeviceName addr) (Name dev))
      (existingAddrs o)
  /\ forall addr,
      In addr (eval (DeviceAddresses dev) o)
      <-> In addr (existingAddrs o) /\ DeviceName addr = Name dev.
Proof.
  assert (Heq : eval (DeviceAddresses dev) o
                = List.filter
                    (fun addr => String.eqb (DeviceName addr) (Name dev))
                    (existingAddrs o)).
  { unfold eval, DeviceAddresses, mbind, M_bind, gets, mret, M_ret. simpl.
    rewrite collect_filter. reflexivity. }
  split; [exact Heq|].
  intros addr. rewrite Heq, filter_In, String.eqb_eq. reflexivity.
Qed.

(** ** The processed-set tracker *)

Lemma Contains_true s v : Contains s v = true <-> v ∈ s.
Proof. unfold Contains. apply bool_decide_eq_true. Qed.

Lemma IsDevProcessed_spec i o :
  eval (IsDevProcessed i) o = true <-> network.MACAddress i ∈ processedDevs o.
Proof. unfold eval, IsDevProcessed; simpl. apply Contains_true. Qed.

Lemma exec_run_marks_cons k ks o :
  exec (run_marks (k :: ks)) o = exec (run_marks ks) (exec (run_mark k) o).
Proof. simpl. rewrite exec_bind. reflexivity. Qed.

Lemma run_marks_processedDevs ks o x :
  x ∈ processedDevs (exec (run_marks ks) o)
  <-> (exists d, In (MarkDev d) ks /\ MACAddress d = x) \/ x ∈ processedDevs o.
Proof.
  revert o. induction ks as [|k ks IH]; intros o.
  - simpl. split; [auto | intros [(d & [] & _) | H]; exact H].
  - rewrite exec_run_marks_cons, IH. destruct k as [d0 | ip]; simpl.
    + unfold exec, Add; simpl. rewrite elem_of_union, elem_of_singleton.
      split.
      * intros [(d & Hd & <-) | [-> | Hx]]; eauto 6.
      * intros [(d & [Hd | Hd] & <-) | Hx]; eauto 6.
        inversion Hd; subst. auto.
    + unfold exec; simpl. split.
      * intros [(d & Hd & <-) | Hx]; eauto 6.
      * intros [(d & [Hd | Hd] & <-) | Hx]; eauto 6. discriminate.
Qed.

Lemma run_marks_processedAddrs ks o x :
  x ∈ processedAddrs (exec (run_marks ks) o)
  <-> In (MarkAddr x) ks \/ x ∈ processedAddrs o.
Proof.
  revert o. induction ks as [|k ks IH]; intros o.
  - simpl. split; [auto | intros [[] | H]; exact H].
  - rewrite exec_run_marks_cons, IH. destruct k as [d0 | ip]; simpl.
    + unfold exec; simpl. split.
      * intros [Hk | Hx]; auto.
      * intros [[Hk | Hk] | Hx]; auto. discriminate.
    + unfold exec, Add; simpl. rewrite elem_of_union, elem_of_singleton.
      split.
      * intros [Hk | [-> | Hx]]; auto.
      * intros [[Hk | Hk] | Hx]; auto. inversion Hk; subst. auto.
Qed.

Lemma Add_comm a b (s : gset string) : Add a (Add b s) = Add b (Add a s).
Proof.
  unfold Add. rewrite !(assoc_L (∪)). f_equal. apply (comm_L (∪)).
Qed.

Lemma Add_idem a (s : gset string) : Add a (Add a s) = Add a s.
Proof. unfold Add. rewrite (assoc_L (∪)), (idemp_L (∪)). reflexivity. Qed.

(** Two marks commute, whatever they mark. *)
Lemma run_mark_comm a b o :
  exec (run_mark b) (exec (run_mark a) o)
  = exec (run_mark a) (exec (run_mark b) o).
Proof.
  destruct a as [da | ia], b as [db | ib]; unfold exec; simpl;
    unfold set_processedDevs, set_processedAddrs; simpl; f_equal;
    apply Add_comm.
Qed.

(** A mark made twice in a row is made once. *)
Lemma run_mark_idem a o :
  exec (run_mark a) (exec (run_mark a) o) = exec (run_mark a) o.
Proof.
  destruct a as [da | ia]; unfold exec; simpl;
    unfold set_processedDevs, set_processedAddrs; simpl; f_equal;
    apply Add_idem.
Qed.

Lemma run_marks_perm ks ks' :
  Permutation ks ks' ->
  forall o, exec (run_marks ks) o = exec (run_marks ks') o.
Proof.
  induction 1 as [| k l l' _ IH | a b l | l l' l'' _ IH1 _ IH2]; intros o.
  - reflexivity.
  - rewrite !exec_run_marks_cons. apply IH.
  - rewrite !exec_run_marks_cons, run_mark_comm. reflexivity.
  - rewrite IH1. apply IH2.
Qed.

(** ** Case of hardware addresses *)

(** C2, refuted as stated: the device has MAC address AA:BB:CC:DD:EE:FF and
    the only incoming interface has hardware address aa:bb:cc:dd:ee:ff.
    The two differ only in letter case and [MatchingIncoming] matches them,
    yet after [MarkDevProcessed] on the device [IsDevProcessed] is false
    for the interface. *)
Lemma IsDevProcessed_case_sensitive :
  let o := NewMachineLinkLayerOp sample_machine [sample_iface_lower] in
  In sample_iface_lower (incoming o)
  /\ network.ToLower (network.MACAddress sample_iface_lower)
     = network.ToLower (MACAddress sample_dev_upper)
  /\ eval (MatchingIncoming sample_dev_upper) o = Some sample_iface_lower
  /\ eval (IsDevProcessed sample_iface_lower)
       (exec (MarkDevProcessed sample_dev_upper) o) = false.
Proof.
  simpl. split; [left; reflexivity|]. split; [reflexivity|].
  split; [reflexivity|].
  unfold eval, exec, IsDevProcessed, Contains; simpl.
  apply bool_decide_eq_false. unfold Add.
  rewrite elem_of_union, elem_of_singleton, elem_of_empty.
  intros [H | []]. discriminate H.
Qed.

(** C2, amended: for every known device and incoming interface whose
    hardware addresses differ only in letter case, [MatchingIncoming]
    yields a match for the device, an interface with the hardware address
    of the device up to letter case; the processed set compares exact
    strings: after [MarkDevProcessed] on the device, [IsDevProcessed] is
    true for the interface exactly when its hardware address is, byte for
    byte, the MAC address of the device, or was in the processed set
    before. *)
Theorem MarkDevProcessed_exact_address (dev : LinkLayerDevice)
  (i : network.InterfaceInfo) (o : MachineLinkLayerOp) :
  In i (incoming o) ->
  network.ToLower (network.MACAddress i) = network.ToLower (MACAddress dev) ->
  (exists j, eval (MatchingIncoming dev) o = Some j
             /\ network.ToLower (network.MACAddress j)
                = network.ToLower (MACAddress dev))
  /\ (eval (IsDevProcessed i) (exec (MarkDevProcessed dev) o) = true
      <-> network.MACAddress i = MACAddress dev
          \/ network.MACAddress i ∈ processedDevs o).
Proof.
  intros Hin Hcase. split.
  - rewrite MatchingIncoming_scan.
    set (same := fun j : network.InterfaceInfo =>
                   network.hwAddrEqual (network.MACAddress j) (MACAddress dev)).
    pose proof (filter_head_first same (incoming o)) as Hm.
    destruct (List.filter same (incoming o)) as [|j rest]; simpl.
    + exfalso. rewrite Forall_forall in Hm.
      assert (Hin' : i ∈ incoming o) by (apply list_elem_of_In; exact Hin).
      specialize (Hm i Hin'). unfold same in Hm.
      apply hwAddrEqual_spec in Hcase. congruence.
    + destruct Hm as (pre & post & _ & Hj & _).
      exists j. split; [reflexivity|]. apply hwAddrEqual_spec. exact Hj.
  - rewrite IsDevProcessed_spec. unfold exec; simpl. unfold Add.
    rewrite elem_of_union, elem_of_singleton. reflexivity.
Qed.

(** The amended C2 at the device AA:BB:CC:DD:EE:FF and the interface
    aa:bb:cc:dd:ee:ff. *)
Lemma MarkDevProcessed_exact_address_witness :
  (exists j, eval (MatchingIncoming sample_dev_upper)
               (NewMachineLinkLayerOp sample_machine [sample_iface_lower])
             = Some j
             /\ network.ToLower (network.MACAddress j)
                = network.ToLower (MACAddress sample_dev_upper))
  /\ (eval (IsDevProcessed sample_iface_lower)
        (exec (MarkDevProcessed sample_dev_upper)
           (NewMachineLinkLayerOp sample_machine [sample_iface_lower])) = true
      <-> network.MACAddress sample_iface_lower = MACAddress sample_dev_upper
          \/ network.MACAddress sample_iface_lower
             ∈ processedDevs
                 (NewMachineLinkLayerOp sample_machine [sample_iface_lower])).
Proof.
  apply (MarkDevProcessed_exact_address sample_dev_upper sample_iface_lower
           (NewMachineLinkLayerOp sample_machine [sample_iface_lower])).
  - simpl. left. reflexivity.
  - reflexivity.
Defined.

(** C4: the tracker keys devices by hardware address and addresses by IP
    value.  After any sequence of marking calls on a fresh operation,
    [IsDevProcessed] is true for an incoming interface exactly when a
    marked device has the same hardware address, and the processed
    addresses are exactly the marked IP values; [MarkAddrProcessed] adds
    the given value to the processed addresses and nothing else.  The sets
    hold the marks of this operation only. *)
Theorem processed_sets_track_marks (m : LinkLayerMachine)
  (inc : network.InterfaceInfos) (ks : list mark)
  (i : network.InterfaceInfo) (ip : string) :
  let o := exec (run_marks ks) (NewMachineLinkLayerOp m inc) in
  (eval (IsDevProcessed i) o = true
   <-> exists d, In (MarkDev d) ks /\ MACAddress d = network.MACAddress i)
  /\ (forall x, x ∈ processedAddrs o <-> In (MarkAddr x) ks)
  /\ (forall x, x ∈ processedAddrs (exec (MarkAddrProcessed ip) o)
                <-> x = ip \/ x ∈ processedAddrs o)
  /\ processedDevs (exec (MarkAddrProcessed ip) o) = processedDevs o.
Proof.
  intros o. subst o. repeat split.
  - rewrite IsDevProcessed_spec, run_marks_processedDevs. simpl.
    intros [H | H]; [exact H | set_solver].
  - intros H. apply IsDevProcessed_spec, run_marks_processedDevs. auto.
  - rewrite run_marks_processedAddrs. simpl.
    intros [H | H]; [exact H | set_solver].
  - intros H. apply run_marks_processedAddrs. auto.
  - unfold exec at 1; simpl. unfold Add.
    rewrite elem_of_union, elem_of_singleton. tauto.
  - unfold exec at 1; simpl. unfold Add.
    rewrite elem_of_union, elem_of_singleton. tauto.
Qed.

(** C10: marking is idempotent and insensitive to order.  Calling
    [MarkDevProcessed] (or [MarkAddrProcessed]) twice leaves the operation
    as calling it once does, and two sequences of marking calls that are
    permutations of each other, such as any interleaving of the marks of
    two devices and two addresses, leave the operation in the same
    state. *)
Theorem marking_idempotent_order_insensitive (d1 d2 : LinkLayerDevice)
  (a1 a2 : string) (ks : list mark) (o : MachineLinkLayerOp) :
  Permutation [MarkDev d1; MarkDev d2; MarkAddr a1; MarkAddr a2] ks ->
  exec (MarkDevProcessed d1;; MarkDevProcessed d1) o
  = exec (MarkDevProcessed d1) o
  /\ exec (MarkAddrProcessed a1;; MarkAddrProcessed a1) o
     = exec (MarkAddrProcessed a1) o
  /\ exec (run_marks ks) o
     = exec (MarkDevProcessed d1;; MarkDevProcessed d2;;
             MarkAddrProcessed a1;; MarkAddrProcessed a2) o.
Proof.
  intros Hperm. split; [|split].
  - rewrite exec_bind. apply (run_mark_idem (MarkDev d1)).
  - rewrite exec_bind. apply (run_mark_idem (MarkAddr a1)).
  - rewrite <- (run_marks_perm _ _ Hperm).
    rewrite !exec_run_marks_cons, !exec_bind. reflexivity.
Qed.

(** C10 at two sample devices and two addresses, marked in another
    order. *)
Lemma marking_idempotent_order_insensitive_witness :
  let o := NewMachineLinkLayerOp sample_machine [sample_iface_lower] in
  let d1 := sample_dev_upper in
  let d2 := sample_dev_eth1 in
  let a1 := "10.0.0.5"%string in
  let a2 := "10.0.0.6"%string in
  exec (MarkDevProcessed d1;; MarkDevProcessed d1) o
  = exec (MarkDevProcessed d1) o
  /\ exec (MarkAddrProcessed a1;; MarkAddrProcessed a1) o
     = exec (MarkAddrProcessed a1) o
  /\ exec (run_marks [MarkAddr a2; MarkDev d2; MarkAddr a1; MarkDev d1]) o
     = exec (MarkDevProcessed d1;; MarkDevProcessed d2;;
             MarkAddrProcessed a1;; MarkAddrProcessed a2) o.
Proof.
  intros o d1 d2 a1 a2.
  apply (marking_idempotent_order_insensitive d1 d2 a1 a2
           [MarkAddr a2; MarkDev d2; MarkAddr a1; MarkDev d1] o).
  apply perm_trans with [MarkAddr a2; MarkAddr a1; MarkDev d2; MarkDev d1].
  - apply (Permutation_rev [MarkDev d1; MarkDev d2; MarkAddr a1; MarkAddr a2]).
  - apply perm_skip, perm_swap.
Defined.

(** ** Snapshots and construction *)

(** C5: [PopulateExistingDevices] (resp. [PopulateExistingAddresses])
    returns an error exactly when the accessor [AllLinkLayerDevices] (resp.
    [AllAddresses]) of the machine fails, and afterwards [ExistingDevices]
    (resp. [ExistingAddresses]) returns the collection the accessor
    produced, the empty collection included; nothing else changes. *)
Theorem Populate_existing (o : MachineLinkLayerOp) :
  (eval PopulateExistingDevices o = None
   <-> snd (AllLinkLayerDevices (machine o)) = None)
  /\ eval ExistingDevices (exec PopulateExistingDevices o)
     = fst (AllLinkLayerDevices (machine o))
  /\ exec PopulateExistingDevices o
     = set_existingDevs (fst (AllLinkLayerDevices (machine o))) o
  /\ (eval PopulateExistingAddresses o = None
      <-> snd (AllAddresses (machine o)) = None)
  /\ eval ExistingAddresses (exec PopulateExistingAddresses o)
     = fst (AllAddresses (machine o))
  /\ exec PopulateExistingAddresses o
     = set_existingAddrs (fst (AllAddresses (machine o))) o.
Proof.
  unfold eval, exec, PopulateExistingDevices, PopulateExistingAddresses,
    ExistingDevices, ExistingAddresses, mbind, M_bind, gets, modify, mret,
    M_ret; simpl.
  destruct (AllLinkLayerDevices (machine o)) as [devs [e|]];
    destruct (AllAddresses (machine o)) as [addrs [e'|]]; simpl;
    repeat split; intros; congruence.
Qed.

(** C6: a freshly constructed operation has empty processed sets, so
    [IsDevProcessed] is false for every incoming interface, empty snapshots
    of existing devices and addresses, and [Incoming] returns the
    collection given to the constructor. *)
Theorem NewMachineLinkLayerOp_fresh (m : LinkLayerMachine)
  (inc : network.InterfaceInfos) (i : network.InterfaceInfo) :
  let o := NewMachineLinkLayerOp m inc in
  processedDevs o = ∅
  /\ processedAddrs o = ∅
  /\ eval (IsDevProcessed i) o = false
  /\ eval ExistingDevices o = []
  /\ eval ExistingAddresses o = []
  /\ eval Incoming o = inc.
Proof.
  simpl. repeat split.
Qed.

(** C7: [Done] returns the outcome it is given, nil or an error, and leaves
    the operation as it was. *)
Theorem Done_returns_input (err : option errors.error)
  (o : MachineLinkLayerOp) :
  Done err o = (err, o)
  /\ eval (Done None) o = None
  /\ forall e, eval (Done (Some e)) o = Some e.
Proof. repeat split. Qed.

(** C9: the query methods leave the operation unchanged: its incoming
    collection, both processed sets and both snapshots are after the call
    what they were before. *)
Theorem queries_read_only (dev : LinkLayerDevice)
  (i : network.InterfaceInfo) (o : MachineLinkLayerOp) :
  exec (MatchingIncoming dev) o = o
  /\ exec (MatchingIncomingAddrs dev) o = o
  /\ exec (DeviceAddresses dev) o = o
  /\ exec (IsDevProcessed i) o = o
  /\ exec Incoming o = o
  /\ exec ExistingDevices o = o
  /\ exec ExistingAddresses o = o.
Proof.
  repeat split.
  unfold exec. rewrite MatchingIncoming_head. reflexivity.
Qed.

(** ** Marks, snapshots and queries together *)

Lemma run_marks_frame ks o :
  machine (exec (run_marks ks) o) = machine o
  /\ incoming (exec (run_marks ks) o) = incoming o
  /\ existingDevs (exec (run_marks ks) o) = existingDevs o
  /\ existingAddrs (exec (run_marks ks) o) = existingAddrs o.
Proof.
  revert o. induction ks as [|k ks IH]; intros o.
  - repeat split.
  - rewrite exec_run_marks_cons.
    destruct (IH (exec (run_mark k) o)) as (-> & -> & -> & ->).
    destruct k; repeat split.
Qed.

Lemma run_marks_set_existingDevs ks v o :
  exec (run_marks ks) (set_existingDevs v o)
  = set_existingDevs v (exec (run_marks ks) o).
Proof.
  revert o. induction ks as [|k ks IH]; intros o; [reflexivity|].
  rewrite !exec_run_marks_cons, <- IH. f_equal. destruct k; reflexivity.
Qed.

Lemma run_marks_set_existingAddrs ks v o :
  exec (run_marks ks) (set_existingAddrs v o)
  = set_existingAddrs v (exec (run_marks ks) o).
Proof.
  revert o. induction ks as [|k ks IH]; intros o; [reflexivity|].
  rewrite !exec_run_marks_cons, <- IH. f_equal. destruct k; reflexivity.
Qed.

Lemma exec_PopulateExistingDevices o :
  exec PopulateExistingDevices o
  = set_existingDevs (fst (AllLinkLayerDevices (machine o))) o.
Proof.
  unfold exec, PopulateExistingDevices, mbind, M_bind, gets, modify; simpl.
  destruct (AllLinkLayerDevices (machine o)); reflexivity.
Qed.

Lemma exec_PopulateExistingAddresses o :
  exec PopulateExistingAddresses o
  = set_existingAddrs (fst (AllAddresses (machine o))) o.
Proof.
  unfold exec, PopulateExistingAddresses, mbind, M_bind, gets, modify; simpl.
  destruct (AllAddresses (machine o)); reflexivity.
Qed.

Lemma eval_PopulateExistingDevices o :
  eval PopulateExistingDevices o
  = errors.Trace (snd (AllLinkLayerDevices (machine o))).
Proof.
  unfold eval, PopulateExistingDevices, mbind, M_bind, gets, modify; simpl.
  destruct (AllLinkLayerDevices (machine o)); reflexivity.
Qed.

Lemma eval_PopulateExistingAddresses o :
  eval PopulateExistingAddresses o
  = errors.Trace (snd (AllAddresses (machine o))).
Proof.
  unfold eval, PopulateExistingAddresses, mbind, M_bind, gets, modify; simpl.
  destruct (AllAddresses (machine o)); reflexivity.
Qed.

Lemma eval_MatchingIncoming dev o :
  eval (MatchingIncoming dev) o
  = head (network.GetByHardwareAddress (incoming o) (MACAddress dev)).
Proof. unfold eval. rewrite MatchingIncoming_head. reflexivity. Qed.

Lemma eval_MatchingIncomingAddrs dev o :
  eval (MatchingIncomingAddrs dev) o
  = networkAddressStateArgsForHWAddr (incoming o) (MACAddress dev).
Proof. reflexivity. Qed.

Lemma eval_DeviceAddresses dev o :
  eval (DeviceAddresses dev) o
  = List.filter (fun addr => String.eqb (DeviceName addr) (Name dev))
      (existingAddrs o).
Proof.
  unfold eval, DeviceAddresses, mbind, M_bind, gets, mret, M_ret. simpl.
  rewrite collect_filter. reflexivity.
Qed.

(** X1: marking never changes what the queries answer.  After any sequence
    of [MarkDevProcessed] and [MarkAddrProcessed] calls, [MatchingIncoming],
    [MatchingIncomingAddrs], [DeviceAddresses], [Incoming],
    [ExistingDevices] and [ExistingAddresses] return what they returned
    before. *)
Theorem marks_preserve_queries (ks : list mark) (dev : LinkLayerDevice)
  (o : MachineLinkLayerOp) :
  let o' := exec (run_marks ks) o in
  eval (MatchingIncoming dev) o' = eval (MatchingIncoming dev) o
  /\ eval (MatchingIncomingAddrs dev) o' = eval (MatchingIncomingAddrs dev) o
  /\ eval (DeviceAddresses dev) o' = eval (DeviceAddresses dev) o
  /\ eval Incoming o' = eval Incoming o
  /\ eval ExistingDevices o' = eval ExistingDevices o
  /\ eval ExistingAddresses o' = eval ExistingAddresses o.
Proof.
  intros o'. subst o'.
  destruct (run_marks_frame ks o) as (_ & Hinc & Hdevs & Haddrs).
  rewrite !eval_MatchingIncoming, !eval_MatchingIncomingAddrs,
    !eval_DeviceAddresses.
  unfold eval, Incoming, ExistingDevices, ExistingAddresses, gets; simpl.
  rewrite Hinc, Hdevs, Haddrs. repeat split.
Qed.

(** X2: no mark is ever undone.  An incoming interface for which
    [IsDevProcessed] is true stays processed through any later sequence of
    marking calls and through both populate methods, and the two processed
    sets only grow. *)
Theorem marks_never_unmark (ks : list mark) (i : network.InterfaceInfo)
  (o : MachineLinkLayerOp) :
  eval (IsDevProcessed i) o = true ->
  eval (IsDevProcessed i) (exec (run_marks ks) o) = true
  /\ eval (IsDevProcessed i) (exec PopulateExistingDevices o) = true
  /\ eval (IsDevProcessed i) (exec PopulateExistingAddresses o) = true
  /\ processedDevs o ⊆ processedDevs (exec (run_marks ks) o)
  /\ processedAddrs o ⊆ processedAddrs (exec (run_marks ks) o).
Proof.
  intros Hi. repeat split.
  - apply IsDevProcessed_spec, run_marks_processedDevs. right.
    apply IsDevProcessed_spec. exact Hi.
  - rewrite exec_PopulateExistingDevices. exact Hi.
  - rewrite exec_PopulateExistingAddresses. exact Hi.
  - intros x Hx. apply run_marks_processedDevs. right. exact Hx.
  - intros x Hx. apply run_marks_processedAddrs. right. exact Hx.
Qed.

(** X2 at the interface AA:BB:CC:DD:EE:FF, processed by the mark of the
    device with that MAC address, then followed by two more marks. *)
Lemma marks_never_unmark_witness :
  let o := exec (MarkDevProcessed sample_dev_upper) sample_op in
  let ks := [MarkAddr "10.0.0.5"; MarkDev sample_dev_eth1] in
  eval (IsDevProcessed sample_iface_upper) (exec (run_marks ks) o) = true
  /\ eval (IsDevProcessed sample_iface_upper)
       (exec PopulateExistingDevices o) = true
  /\ eval (IsDevProcessed sample_iface_upper)
       (exec PopulateExistingAddresses o) = true
  /\ processedDevs o ⊆ processedDevs (exec (run_marks ks) o)
  /\ processedAddrs o ⊆ processedAddrs (exec (run_marks ks) o).
Proof.
  intros o ks.
  apply (marks_never_unmark ks sample_iface_upper o).
  vm_compute. reflexivity.
Defined.

(** X3: populating the snapshots and marking are independent.  A populate
    method run after a sequence of marks leaves the operation in the state
    reached by populating first and marking afterwards, returns the same
    error either way, and the two populate methods commute. *)
Theorem populate_marks_independent (ks : list mark) (o : MachineLinkLayerOp) :
  exec PopulateExistingDevices (exec (run_marks ks) o)
  = exec (run_marks ks) (exec PopulateExistingDevices o)
  /\ exec PopulateExistingAddresses (exec (run_marks ks) o)
     = exec (run_marks ks) (exec PopulateExistingAddresses o)
  /\ eval PopulateExistingDevices (exec (run_marks ks) o)
     = eval PopulateExistingDevices o
  /\ eval PopulateExistingAddresses (exec (run_marks ks) o)
     = eval PopulateExistingAddresses o
  /\ exec PopulateExistingAddresses (exec PopulateExistingDevices o)
     = exec PopulateExistingDevices (exec PopulateExistingAddresses o).
Proof.
  destruct (run_marks_frame ks o) as (Hm & _).
  rewrite !exec_PopulateExistingDevices, !exec_PopulateExistingAddresses,
    !eval_PopulateExistingDevices, !eval_PopulateExistingAddresses.
  rewrite run_marks_set_existingDevs, run_marks_set_existingAddrs, Hm.
  repeat split.
Qed.

(** X4: the known addresses are attributed to devices by name alone.  Two
    devices with the same name get the same list from [DeviceAddresses],
    whatever their identifiers and MAC addresses; two devices with
    different names get lists without a common address. *)
Theorem DeviceAddresses_by_name (d1 d2 : LinkLayerDevice)
  (o : MachineLinkLayerOp) :
  if String.eqb (Name d1) (Name d2)
  then eval (DeviceAddresses d1) o = eval (DeviceAddresses d2) o
  else Forall (fun addr => ~ In addr (eval (DeviceAddresses d2) o))
         (eval (DeviceAddresses d1) o).
Proof.
  rewrite !eval_DeviceAddresses.
  destruct (String.eqb_spec (Name d1) (Name d2)) as [Heq | Hne].
  - rewrite Heq. reflexivity.
  - apply Forall_forall. intros addr Hin H2.
    apply list_elem_of_In, filter_In in Hin as [_ H1].
    apply filter_In in H2 as [_ H2].
    apply String.eqb_eq in H1, H2. congruence.
Qed.

(** X5: [DeviceAddresses] reads the snapshot only.  On a fresh operation it
    is empty for every device, whatever the machine holds; once
    [PopulateExistingAddresses] has run it is the list of addresses the
    accessor returned, restricted to the name of the device, also when the
    accessor reported an error. *)
Theorem DeviceAddresses_after_populate (m : LinkLayerMachine)
  (inc : network.InterfaceInfos) (dev : LinkLayerDevice)
  (o : MachineLinkLayerOp) :
  eval (DeviceAddresses dev) (NewMachineLinkLayerOp m inc) = []
  /\ eval (DeviceAddresses dev) (exec PopulateExistingAddresses o)
     = List.filter (fun addr => String.eqb (DeviceName addr) (Name dev))
         (fst (AllAddresses (machine o)))
  /\ eval (DeviceAddresses dev) (exec PopulateExistingDevices o)
     = eval (DeviceAddresses dev) o.
Proof.
  rewrite !eval_DeviceAddresses, exec_PopulateExistingAddresses,
    exec_PopulateExistingDevices. repeat split.
Qed.

(** ** charmhub: metadata headers *)

Lemma SortedValues_elem (s : gset string) (x : string) :
  x ∈ charmhub.SortedValues s <-> x ∈ s.
Proof.
  unfold charmhub.SortedValues.
  rewrite merge_sort_Permutation. apply elem_of_elements.
Qed.

Lemma SortedValues_sorted (s : gset string) :
  StronglySorted String.le (charmhub.SortedValues s).
Proof. apply StronglySorted_merge_sort; apply _. Qed.

Lemma SortedValues_NoDup (s : gset string) : NoDup (charmhub.SortedValues s).
Proof.
  unfold charmhub.SortedValues.
  rewrite merge_sort_Permutation. apply NoDup_elements.
Qed.

Lemma NewStrings_SortedValues (s : gset string) :
  charmhub.NewStrings (charmhub.SortedValues s) = s.
Proof.
  apply set_eq. intros x. unfold charmhub.NewStrings.
  rewrite elem_of_list_to_set. apply SortedValues_elem.
Qed.

Lemma NewStrings_app (x y : list string) :
  charmhub.NewStrings (x ++ y) = charmhub.NewStrings x ∪ charmhub.NewStrings y.
Proof. apply list_to_set_app_L. Qed.

(** The appending loop, key by key. *)
Lemma appendValues_lookup (m result : charmhub.Headers) (k : string) :
  charmhub.appendValues m result !! k
  = match m !! k with
    | Some v => Some (default [] (result !! k) ++ v)
    | None => result !! k
    end.
Proof.
  unfold charmhub.appendValues. revert k.
  apply (map_fold_weak_ind
           (fun (r : charmhub.Headers) (m' : charmhub.Headers) =>
              forall k, r !! k
                        = match m' !! k with
                          | Some v => Some (default [] (result !! k) ++ v)
                          | None => result !! k
                          end)).
  - intros k. rewrite lookup_empty. reflexivity.
  - intros i x m' r Hi IH k. destruct (decide (i = k)) as [<- | Hne].
    + rewrite !lookup_insert_eq. specialize (IH i). rewrite Hi in IH.
      rewrite IH. reflexivity.
    + rewrite !lookup_insert_ne by exact Hne. apply IH.
Qed.

(** What [composeMetadataHeaders] holds under a key: the sorted values of
    the union of what the two maps hold under it. *)
Lemma composeMetadataHeaders_lookup (a b : charmhub.Headers) (k : string) :
  charmhub.composeMetadataHeaders a b !! k
  = charmhub.SortedValues
    <$> union_with (fun x y => Some (x ∪ y))
          (charmhub.NewStrings <$> a !! k) (charmhub.NewStrings <$> b !! k).
Proof.
  unfold charmhub.composeMetadataHeaders.
  rewrite lookup_fmap, !appendValues_lookup, lookup_empty.
  destruct (a !! k) as [x|], (b !! k) as [y|]; simpl; try reflexivity.
  rewrite NewStrings_app. reflexivity.
Qed.

Lemma composeMetadataHeaders_sets (a b : charmhub.Headers) (k : string) :
  charmhub.NewStrings <$> charmhub.composeMetadataHeaders a b !! k
  = union_with (fun x y => Some (x ∪ y))
      (charmhub.NewStrings <$> a !! k) (charmhub.NewStrings <$> b !! k).
Proof.
  rewrite composeMetadataHeaders_lookup.
  destruct (union_with _ _ _) as [s|]; simpl; [|reflexivity].
  rewrite NewStrings_SortedValues. reflexivity.
Qed.

(** X6: under every key, [composeMetadataHeaders] holds a value exactly
    when one of the two maps does; the value is sorted, free of duplicates
    and made of the strings the two maps hold under the key. *)
Theorem composeMetadataHeaders_values (a b : charmhub.Headers) (k : string) :
  match charmhub.composeMetadataHeaders a b !! k with
  | Some v =>
      (is_Some (a !! k) \/ is_Some (b !! k))
      /\ StronglySorted String.le v /\ NoDup v
      /\ forall x, x ∈ v <-> x ∈ default [] (a !! k) \/ x ∈ default [] (b !! k)
  | None => a !! k = None /\ b !! k = None
  end.
Proof.
  rewrite composeMetadataHeaders_lookup.
  destruct (a !! k) as [x|], (b !! k) as [y|]; simpl;
    try (split; [eauto | split; [apply SortedValues_sorted |
           split; [apply SortedValues_NoDup |]]]);
    try (intros z; rewrite SortedValues_elem; unfold charmhub.NewStrings;
         try rewrite elem_of_union; rewrite ?elem_of_list_to_set;
         rewrite ?elem_of_nil; tauto).
  split; reflexivity.
Qed.

Lemma composeMetadataHeaders_comm (a b : charmhub.Headers) :
  charmhub.composeMetadataHeaders a b = charmhub.composeMetadataHeaders b a.
Proof.
  apply map_eq; intros k. rewrite !composeMetadataHeaders_lookup.
  destruct (a !! k) as [x|], (b !! k) as [y|]; simpl; try reflexivity.
  rewrite (comm_L (∪)). reflexivity.
Qed.

Lemma composeMetadataHeaders_assoc (a b c : charmhub.Headers) :
  charmhub.composeMetadataHeaders (charmhub.composeMetadataHeaders a b) c
  = charmhub.composeMetadataHeaders a (charmhub.composeMetadataHeaders b c).
Proof.
  apply map_eq; intros k.
  rewrite (composeMetadataHeaders_lookup
             (charmhub.composeMetadataHeaders a b) c),
    (composeMetadataHeaders_lookup a
       (charmhub.composeMetadataHeaders b c)),
    !composeMetadataHeaders_sets.
  destruct (a !! k) as [x|], (b !! k) as [y|], (c !! k) as [z|]; simpl;
    try reflexivity.
  rewrite (assoc_L (∪)). reflexivity.
Qed.

Lemma composeMetadataHeaders_empty_l (a b : charmhub.Headers) :
  charmhub.composeMetadataHeaders ∅ (charmhub.composeMetadataHeaders a b)
  = charmhub.composeMetadataHeaders a b.
Proof.
  apply map_eq; intros k.
  rewrite (composeMetadataHeaders_lookup ∅
             (charmhub.composeMetadataHeaders a b)),
    composeMetadataHeaders_sets, composeMetadataHeaders_lookup, lookup_empty.
  destruct (a !! k), (b !! k); reflexivity.
Qed.

(** X7: [composeMetadataHeaders] is commutative and associative. *)
Theorem composeMetadataHeaders_comm_assoc (a b c : charmhub.Headers) :
  charmhub.composeMetadataHeaders a b = charmhub.composeMetadataHeaders b a
  /\ charmhub.composeMetadataHeaders (charmhub.composeMetadataHeaders a b) c
     = charmhub.composeMetadataHeaders a (charmhub.composeMetadataHeaders b c).
Proof.
  split; [apply composeMetadataHeaders_comm | apply composeMetadataHeaders_assoc].
Qed.

(** X8: composing is a normalisation that is done once.  The result of
    [composeMetadataHeaders] is left as it is by composing it with the
    empty map on either side, and composing a map with itself is composing
    it with the empty map. *)
Theorem composeMetadataHeaders_normal (a b : charmhub.Headers) :
  charmhub.composeMetadataHeaders (charmhub.composeMetadataHeaders a b) ∅
  = charmhub.composeMetadataHeaders a b
  /\ charmhub.composeMetadataHeaders ∅ (charmhub.composeMetadataHeaders a b)
     = charmhub.composeMetadataHeaders a b
  /\ charmhub.composeMetadataHeaders a a = charmhub.composeMetadataHeaders a ∅
  /\ charmhub.composeMetadataHeaders ∅ ∅ = ∅.
Proof.
  repeat split; apply map_eq; intros k.
  - rewrite (composeMetadataHeaders_lookup
               (charmhub.composeMetadataHeaders a b) ∅),
      composeMetadataHeaders_sets, composeMetadataHeaders_lookup, lookup_empty.
    destruct (a !! k), (b !! k); reflexivity.
  - rewrite (composeMetadataHeaders_lookup ∅
               (charmhub.composeMetadataHeaders a b)),
      composeMetadataHeaders_sets, composeMetadataHeaders_lookup, lookup_empty.
    destruct (a !! k), (b !! k); reflexivity.
  - rewrite !composeMetadataHeaders_lookup, lookup_empty.
    destruct (a !! k); simpl; [|reflexivity].
    rewrite (idemp_L (∪)). reflexivity.
Qed.

Lemma nonEmpty_spec (s : string) :
  charmhub.nonEmpty s = true <-> s <> ""%string.
Proof.
  unfold charmhub.nonEmpty. rewrite negb_true_iff. apply String.eqb_neq.
Qed.

Lemma SortedValues_single (x : string) :
  charmhub.SortedValues (charmhub.NewStrings [x]) = [x].
Proof.
  unfold charmhub.SortedValues, charmhub.NewStrings. simpl.
  rewrite (right_id_L ∅ (∪)), elements_singleton. reflexivity.
Qed.

Lemma constructMetadataHeaders_key (p : charmhub.RefreshPlatform)
  (k : string) :
  charmhub.constructMetadataHeaders p !! k
  = (if String.eqb k "arch" then
       if charmhub.nonEmpty (charmhub.Architecture p)
       then Some [charmhub.Architecture p] else None
     else if String.eqb k "os" then
       if charmhub.nonEmpty (charmhub.OS p)
       then Some [charmhub.OS p] else None
     else if String.eqb k "series" then
       if charmhub.nonEmpty (charmhub.Series p)
       then Some [charmhub.Series p] else None
     else None).
Proof.
  unfold charmhub.constructMetadataHeaders.
  destruct (String.eqb_spec k "arch") as [-> | Harch];
    [| destruct (String.eqb_spec k "os") as [-> | Hos];
       [| destruct (String.eqb_spec k "series") as [-> | Hser]]];
    destruct (charmhub.nonEmpty (charmhub.Architecture p)),
      (charmhub.nonEmpty (charmhub.OS p)),
      (charmhub.nonEmpty (charmhub.Series p));
    by simplify_map_eq.
Qed.

Lemma constructMetadataHeaders_composed (p : charmhub.RefreshPlatform) :
  charmhub.composeMetadataHeaders ∅ (charmhub.constructMetadataHeaders p)
  = charmhub.constructMetadataHeaders p.
Proof.
  apply map_eq. intros k.
  rewrite composeMetadataHeaders_lookup, lookup_empty,
    constructMetadataHeaders_key.
  destruct (String.eqb k "arch"), (String.eqb k "os"),
    (String.eqb k "series"),
    (charmhub.nonEmpty (charmhub.Architecture p)),
    (charmhub.nonEmpty (charmhub.OS p)),
    (charmhub.nonEmpty (charmhub.Series p)); simpl;
    rewrite ?SortedValues_single; reflexivity.
Qed.

(** X9: [constructMetadataHeaders] has at most the keys arch, os and
    series, each present exactly when the corresponding field of the
    platform is not empty and then holding that field alone; such headers
    are already in composed form, and an empty platform has none. *)
Theorem constructMetadataHeaders_lookup (p : charmhub.RefreshPlatform)
  (k : string) :
  charmhub.constructMetadataHeaders p !! k
  = (if String.eqb k "arch" then
       if charmhub.nonEmpty (charmhub.Architecture p)
       then Some [charmhub.Architecture p] else None
     else if String.eqb k "os" then
       if charmhub.nonEmpty (charmhub.OS p)
       then Some [charmhub.OS p] else None
     else if String.eqb k "series" then
       if charmhub.nonEmpty (charmhub.Series p)
       then Some [charmhub.Series p] else None
     else None)
  /\ charmhub.composeMetadataHeaders ∅ (charmhub.constructMetadataHeaders p)
     = charmhub.constructMetadataHeaders p
  /\ charmhub.constructMetadataHeaders
       {| charmhub.Architecture := ""; charmhub.OS := "";
          charmhub.Series := "" |} = ∅.
Proof.
  split; [apply constructMetadataHeaders_key|].
  split; [apply constructMetadataHeaders_composed | reflexivity].
Qed.

(** ** charmhub: platforms *)

Lemma validatePlatform_cases (rp : charmhub.RefreshPlatform) :
  match charmhub.validatePlatform rp with
  | None =>
      charmhub.Architecture rp <> "all"%string
      /\ charmhub.OS rp <> "all"%string
      /\ charmhub.Series rp <> "all"%string
  | Some e =>
      charmhub.IsNotValid e = true
      /\ (charmhub.Architecture rp = "all"%string
          \/ charmhub.OS rp = "all"%string
          \/ charmhub.Series rp = "all"%string)
  end.
Proof.
  unfold charmhub.validatePlatform.
  destruct (String.eqb_spec (charmhub.Architecture rp) "all"),
    (String.eqb_spec (charmhub.OS rp) "all"),
    (String.eqb_spec (charmhub.Series rp) "all"); simpl; auto.
Qed.

(** X10: [validatePlatform] accepts a platform exactly when none of its
    architecture, OS and series is the string all; the error it returns
    otherwise is a not-valid error. *)
Theorem validatePlatform_all (rp : charmhub.RefreshPlatform) :
  match charmhub.validatePlatform rp with
  | None =>
      charmhub.Architecture rp <> "all"%string
      /\ charmhub.OS rp <> "all"%string
      /\ charmhub.Series rp <> "all"%string
  | Some e =>
      charmhub.IsNotValid e = true
      /\ (charmhub.Architecture rp = "all"%string
          \/ charmhub.OS rp = "all"%string
          \/ charmhub.Series rp = "all"%string)
  end.
Proof. exact (validatePlatform_cases rp). Qed.

(** X11: a platform without series is rendered by [String] as its
    architecture alone: the OS is dropped, so that two such platforms that
    differ in their OS are rendered alike. *)
Theorem RefreshPlatform_String_no_series (arch os os' : string) :
  charmhub.RefreshPlatform_String
    {| charmhub.Architecture := arch; charmhub.OS := os;
       charmhub.Series := "" |} = arch
  /\ charmhub.RefreshPlatform_String
       {| charmhub.Architecture := arch; charmhub.OS := os;
          charmhub.Series := "" |}
     = charmhub.RefreshPlatform_String
         {| charmhub.Architecture := arch; charmhub.OS := os';
            charmhub.Series := "" |}.
Proof. split; reflexivity. Qed.

(** ** charmhub: the configurations *)

Lemma withInstanceKey_result (newUUID : string * option charmhub.error)
  (platform : charmhub.RefreshPlatform)
  (mk : string -> charmhub.RefreshConfig) :
  charmhub.withInstanceKey newUUID platform mk
  = match charmhub.validatePlatform platform, snd newUUID with
    | Some e, _ => (None, Some (charmhub.Traced e))
    | None, Some e => (None, Some (charmhub.Traced e))
    | None, None => (Some (mk (fst newUUID)), None)
    end.
Proof.
  unfold charmhub.withInstanceKey.
  destruct (charmhub.validatePlatform platform), (snd newUUID); reflexivity.
Qed.

Lemma hasInstanceKey_spec (responses : list transport.RefreshResponse)
  (key : string) :
  charmhub.hasInstanceKey responses key = true
  <-> In key (map transport.InstanceKey responses).
Proof.
  unfold charmhub.hasInstanceKey. rewrite existsb_exists, in_map_iff.
  split; intros (resp & H1 & H2).
  - apply String.eqb_eq in H2. eauto.
  - exists resp. split; [exact H2 | apply String.eqb_eq; exact H1].
Qed.

Lemma withInstanceKey_cases (newUUID : string * option charmhub.error)
  (platform : charmhub.RefreshPlatform)
  (mk : string -> charmhub.RefreshConfig) :
  let r := charmhub.withInstanceKey newUUID platform mk in
  (is_Some (fst r)
   <-> charmhub.validatePlatform platform = None /\ snd newUUID = None)
  /\ (fst r = None <-> is_Some (snd r))
  /\ match charmhub.validatePlatform platform with
     | Some _ => exists e, snd r = Some e /\ charmhub.IsNotValid e = true
     | None => True
     end.
Proof.
  pose proof (validatePlatform_cases platform) as Hv.
  simpl. rewrite withInstanceKey_result.
  destruct (charmhub.validatePlatform platform) as [e|],
    (snd newUUID) as [e'|]; simpl; unfold is_Some.
  - split; [split; [intros [? H]; discriminate H | intros [H _]; discriminate H]|].
    split; [split; [intros _; eauto | reflexivity]|].
    eexists; split; [reflexivity | apply Hv].
  - split; [split; [intros [? H]; discriminate H | intros [H _]; discriminate H]|].
    split; [split; [intros _; eauto | reflexivity]|].
    eexists; split; [reflexivity | apply Hv].
  - split; [split; [intros [? H]; discriminate H | intros [_ H]; discriminate H]|].
    split; [split; [intros _; eauto | reflexivity] | exact I].
  - split; [split; [auto | eauto]|].
    split; [split; [discriminate | intros [? H]; discriminate H] | exact I].
Qed.

(** X12: each of the six constructors returns either a configuration or an
    error, never both and never neither.  It returns a configuration
    exactly when the platform is valid and the identifier was generated;
    with an invalid platform the error is a not-valid error, whatever the
    generator did. *)
Theorem constructors_result (newUUID : string * option charmhub.error)
  (id name : string) (revision : Z) (channel : string)
  (platform : charmhub.RefreshPlatform) :
  Forall
    (fun r : option charmhub.RefreshConfig * option charmhub.error =>
       (is_Some (fst r)
        <-> charmhub.validatePlatform platform = None /\ snd newUUID = None)
       /\ (fst r = None <-> is_Some (snd r))
       /\ match charmhub.validatePlatform platform with
          | Some _ => exists e, snd r = Some e /\ charmhub.IsNotValid e = true
          | None => True
          end)
    (constructed newUUID id name revision channel platform).
Proof.
  unfold constructed.
  repeat (constructor; [apply withInstanceKey_cases|]).
  constructor.
Qed.

Lemma refreshMany_Build_from_ok (cs : list charmhub.RefreshConfig)
  (res : transport.RefreshRequest) (H : charmhub.Headers) :
  Forall (fun c => buildError c = None) cs ->
  charmhub.refreshMany_Build_from cs res H
  = ({| transport.Context :=
          transport.Context res
          ++ List.flat_map (fun c => transport.Context (buildRequest c)) cs;
        transport.Actions :=
          transport.Actions res
          ++ List.flat_map (fun c => transport.Actions (buildRequest c)) cs |},
     fold_left
       (fun h c => charmhub.composeMetadataHeaders h (buildHeaders c)) cs H,
     None).
Proof.
  intros Hok. revert res H.
  induction Hok as [|c cs Hc _ IH]; intros res H; simpl.
  - rewrite !app_nil_r. destruct res; reflexivity.
  - unfold buildError, buildRequest, buildHeaders in *.
    destruct (charmhub.Build c) as [[req h] err]. simpl in *. subst err.
    rewrite IH. simpl. rewrite <- !app_assoc. reflexivity.
Qed.

Lemma refreshMany_Build_from_fail (pre post : list charmhub.RefreshConfig)
  (c : charmhub.RefreshConfig) (e : charmhub.error)
  (res : transport.RefreshRequest) (H : charmhub.Headers) :
  Forall (fun c => buildError c = None) pre ->
  buildError c = Some e ->
  charmhub.refreshMany_Build_from (pre ++ c :: post) res H
  = (charmhub.emptyRequest, ∅, Some (charmhub.Traced e)).
Proof.
  intros Hok He. revert res H.
  induction Hok as [|c0 cs Hc _ IH]; intros res H; simpl.
  - unfold buildError in He.
    destruct (charmhub.Build c) as [[req h] err]. simpl in He. subst err.
    reflexivity.
  - unfold buildError in Hc.
    destruct (charmhub.Build c0) as [[req h] err]. simpl in Hc. subst err.
    apply IH.
Qed.

Lemma refreshMany_Build_from_error (cs : list charmhub.RefreshConfig)
  (res : transport.RefreshRequest) (H : charmhub.Headers) :
  snd (charmhub.refreshMany_Build_from cs res H) = None
  <-> Forall (fun c => buildError c = None) cs.
Proof.
  revert res H. induction cs as [|c cs IH]; intros res H; simpl.
  - split; [constructor | reflexivity].
  - unfold buildError at 1.
    destruct (charmhub.Build c) as [[req h] [e|]] eqn:Hb; simpl.
    + split; [discriminate|]. intros Hall. inversion Hall as [|? ? Hc _].
      unfold buildError in Hc. rewrite Hb in Hc. discriminate Hc.
    + rewrite IH. split.
      * intros Hall. constructor; [|exact Hall].
        unfold buildError. rewrite Hb. reflexivity.
      * intros Hall. inversion Hall. assumption.
Qed.

Lemma refreshMany_Ensure_ok (cs : list charmhub.RefreshConfig)
  (responses : list transport.RefreshResponse) :
  charmhub.refreshMany_Ensure cs responses = None
  <-> Forall (fun c => charmhub.Ensure c responses = None) cs.
Proof.
  induction cs as [|c cs IH]; simpl.
  - split; [constructor | reflexivity].
  - destruct (charmhub.Ensure c responses) as [e|] eqn:He.
    + split; [discriminate|]. intros Hall. inversion Hall as [|? ? Hc _].
      congruence.
    + rewrite IH. split.
      * intros Hall. constructor; assumption.
      * intros Hall. inversion Hall. assumption.
Qed.

(** X13: [RefreshMany] builds when all its configurations build and not
    otherwise, and it is satisfied by a list of responses exactly when all
    its configurations are; without configurations it builds the empty
    request and is satisfied by every list of responses.  The error of its
    [Ensure] is the annotated error of one of its configurations. *)
Theorem RefreshMany_all (cs : list charmhub.RefreshConfig)
  (responses : list transport.RefreshResponse) :
  (buildError (charmhub.RefreshMany cs) = None
   <-> Forall (fun c => buildError c = None) cs)
  /\ (charmhub.Ensure (charmhub.RefreshMany cs) responses = None
      <-> Forall (fun c => charmhub.Ensure c responses = None) cs)
  /\ match charmhub.Ensure (charmhub.RefreshMany cs) responses with
     | Some err =>
         exists c e, In c cs /\ charmhub.Ensure c responses = Some e
                     /\ err = charmhub.Annotated e "missing response"
     | None => True
     end
  /\ charmhub.Build (charmhub.RefreshMany []) = (charmhub.emptyRequest, ∅, None)
  /\ charmhub.Ensure (charmhub.RefreshMany []) responses = None.
Proof.
  split; [apply refreshMany_Build_from_error|].
  split; [apply refreshMany_Ensure_ok|].
  split; [|split; reflexivity].
  simpl. induction cs as [|c cs IH]; simpl; [exact I|].
  destruct (charmhub.Ensure c responses) as [e|] eqn:He.
  - exists c, e. auto.
  - destruct (charmhub.refreshMany_Ensure cs responses); [|exact I].
    destruct IH as (c' & e' & Hin & Hc' & ->). exists c', e'. auto.
Qed.

Lemma refreshMany_Build_ok (cs : list charmhub.RefreshConfig) :
  Forall (fun c => buildError c = None) cs ->
  charmhub.Build (charmhub.RefreshMany cs)
  = ({| transport.Context :=
          List.flat_map (fun c => transport.Context (buildRequest c)) cs;
        transport.Actions :=
          List.flat_map (fun c => transport.Actions (buildRequest c)) cs |},
     fold_left
       (fun h c => charmhub.composeMetadataHeaders h (buildHeaders c)) cs ∅,
     None).
Proof.
  intros Hok. simpl. unfold charmhub.refreshMany_Build.
  rewrite refreshMany_Build_from_ok by exact Hok. reflexivity.
Qed.

(** X14: when every configuration builds, [RefreshMany] builds the request
    whose contexts and actions are those of the configurations, in their
    order, with the headers of the configurations composed from the empty
    headers, and no error. *)
Theorem RefreshMany_Build_concat (cs : list charmhub.RefreshConfig) :
  Forall (fun c => buildError c = None) cs ->
  charmhub.Build (charmhub.RefreshMany cs)
  = ({| transport.Context :=
          List.flat_map (fun c => transport.Context (buildRequest c)) cs;
        transport.Actions :=
          List.flat_map (fun c => transport.Actions (buildRequest c)) cs |},
     fold_left
       (fun h c => charmhub.composeMetadataHeaders h (buildHeaders c)) cs ∅,
     None).
Proof. apply refreshMany_Build_ok. Qed.

(** X14 at a refresh and an install configuration. *)
Lemma RefreshMany_Build_concat_witness :
  charmhub.Build (charmhub.RefreshMany [sample_refresh; sample_install])
  = ({| transport.Context :=
          List.flat_map (fun c => transport.Context (buildRequest c))
            [sample_refresh; sample_install];
        transport.Actions :=
          List.flat_map (fun c => transport.Actions (buildRequest c))
            [sample_refresh; sample_install] |},
     fold_left
       (fun h c => charmhub.composeMetadataHeaders h (buildHeaders c))
       [sample_refresh; sample_install] ∅,
     None).
Proof.
  apply (RefreshMany_Build_concat [sample_refresh; sample_install]).
  repeat constructor.
Defined.

(** X15: when a configuration fails to build and those before it build,
    [RefreshMany] returns the traced error of that configuration with an
    empty request and no headers: what the earlier configurations built is
    dropped and the later ones are not looked at. *)
Theorem RefreshMany_Build_first_error (pre post : list charmhub.RefreshConfig)
  (c : charmhub.RefreshConfig) (e : charmhub.error) :
  Forall (fun c => buildError c = None) pre ->
  buildError c = Some e ->
  charmhub.Build (charmhub.RefreshMany (pre ++ c :: post))
  = (charmhub.emptyRequest, ∅, Some (charmhub.Traced e)).
Proof.
  intros Hok He. simpl. unfold charmhub.refreshMany_Build.
  apply refreshMany_Build_from_fail; assumption.
Qed.

(** X15 at a failing configuration between two that build. *)
Lemma RefreshMany_Build_first_error_witness :
  charmhub.Build
    (charmhub.RefreshMany ([sample_refresh] ++ sample_failing :: [sample_install]))
  = (charmhub.emptyRequest, ∅,
     Some (charmhub.Traced (charmhub.Other "cannot build"))).
Proof.
  apply (RefreshMany_Build_first_error [sample_refresh] [sample_install]
           sample_failing (charmhub.Other "cannot build")).
  - repeat constructor.
  - reflexivity.
Defined.

Lemma Ensure_one_key (key : string) (err : charmhub.error)
  (responses : list transport.RefreshResponse)
  (a : transport.RefreshRequestAction) :
  transport.ActionInstanceKey a = key ->
  (if charmhub.hasInstanceKey responses key then None else Some err) = None
  <-> Forall
        (fun a => In (transport.ActionInstanceKey a)
                    (map transport.InstanceKey responses)) [a].
Proof.
  intros <-.
  destruct (charmhub.hasInstanceKey responses (transport.ActionInstanceKey a))
    eqn:Hk.
  - apply hasInstanceKey_spec in Hk. split; [|reflexivity].
    intros _. constructor; [exact Hk | constructor].
  - split; [discriminate|]. intros Hall. inversion Hall as [|? ? Hin _].
    apply hasInstanceKey_spec in Hin. congruence.
Qed.

(** X16: for every configuration made of the implementations of this
    package, however nested in [RefreshMany], [Build] never fails, and
    [Ensure] accepts a list of responses exactly when every action of the
    request that [Build] returns is answered by a response carrying the
    instance key of the action. *)
Theorem packageConfig_build_ensure (c : charmhub.RefreshConfig) :
  packageConfig c ->
  buildError c = None
  /\ forall responses,
      charmhub.Ensure c responses = None
      <-> Forall
            (fun a => In (transport.ActionInstanceKey a)
                        (map transport.InstanceKey responses))
            (transport.Actions (buildRequest c)).
Proof.
  pose (P := fun c : charmhub.RefreshConfig =>
    buildError c = None
    /\ forall responses,
        charmhub.Ensure c responses = None
        <-> Forall
              (fun a => In (transport.ActionInstanceKey a)
                          (map transport.InstanceKey responses))
              (transport.Actions (buildRequest c))).
  intros Hc. change (P c).
  induction Hc using packageConfig_mut with (P0 := Forall P).
  - split; [reflexivity|]. intros responses.
    apply Ensure_one_key. reflexivity.
  - split; [reflexivity|]. intros responses.
    apply Ensure_one_key. reflexivity.
  - rename IHHc into Hall.
    assert (Hok : Forall (fun c => buildError c = None) cs).
    { eapply Forall_impl; [exact Hall|]. intros c0 [H0 _]. exact H0. }
    split.
    + apply refreshMany_Build_from_error. exact Hok.
    + intros responses. unfold buildRequest at 1. simpl.
      unfold charmhub.refreshMany_Build.
      rewrite refreshMany_Build_from_ok by exact Hok. simpl.
      rewrite refreshMany_Ensure_ok, Forall_flat_map.
      split; intros Hens; rewrite Forall_forall in *; intros c0 Hc0;
        destruct (Hall c0 Hc0) as [_ Hiff]; apply Hiff, Hens, Hc0.
  - constructor.
  - constructor; assumption.
Qed.

(** X16 at a refresh configuration beside a nested install
    configuration. *)
Lemma packageConfig_build_ensure_witness :
  buildError sample_nested = None
  /\ forall responses,
      charmhub.Ensure sample_nested responses = None
      <-> Forall
            (fun a => In (transport.ActionInstanceKey a)
                        (map transport.InstanceKey responses))
            (transport.Actions (buildRequest sample_nested)).
Proof.
  apply (packageConfig_build_ensure sample_nested).
  apply package_refreshMany, package_cons.
  - apply package_refreshOne.
  - apply package_cons; [|apply package_nil].
    apply package_refreshMany, package_cons;
      [apply package_executeOne | apply package_nil].
Defined.

Lemma fold_compose_normal (cs : list charmhub.RefreshConfig) :
  charmhub.composeMetadataHeaders ∅
    (fold_left
       (fun h c => charmhub.composeMetadataHeaders h (buildHeaders c)) cs ∅)
  = fold_left
      (fun h c => charmhub.composeMetadataHeaders h (buildHeaders c)) cs ∅.
Proof.
  induction cs as [|c cs _] using rev_ind.
  - reflexivity.
  - rewrite fold_left_app. simpl. apply composeMetadataHeaders_empty_l.
Qed.

Lemma fold_compose_perm (cs cs' : list charmhub.RefreshConfig) :
  Permutation cs cs' ->
  forall H : charmhub.Headers,
    fold_left (fun h c => charmhub.composeMetadataHeaders h (buildHeaders c))
      cs H
    = fold_left (fun h c => charmhub.composeMetadataHeaders h (buildHeaders c))
        cs' H.
Proof.
  induction 1 as [| c l l' _ IH | c1 c2 l | l l' l'' _ IH1 _ IH2]; intros H.
  - reflexivity.
  - simpl. apply IH.
  - simpl. f_equal.
    rewrite !composeMetadataHeaders_assoc.
    rewrite (composeMetadataHeaders_comm (buildHeaders c1)). reflexivity.
  - rewrite IH1. apply IH2.
Qed.

(** X17: a [RefreshMany] nested at the head of another is flattened away.
    When all configurations build, the nested configuration builds the
    same request, headers included, as [RefreshMany] of the concatenated
    configurations, and the two accept the same lists of responses. *)
Theorem RefreshMany_flatten (xs ys : list charmhub.RefreshConfig)
  (responses : list transport.RefreshResponse) :
  Forall (fun c => buildError c = None) xs ->
  Forall (fun c => buildError c = None) ys ->
  charmhub.Build (charmhub.RefreshMany (charmhub.RefreshMany xs :: ys))
  = charmhub.Build (charmhub.RefreshMany (xs ++ ys))
  /\ (charmhub.Ensure (charmhub.RefreshMany (charmhub.RefreshMany xs :: ys))
        responses = None
      <-> charmhub.Ensure (charmhub.RefreshMany (xs ++ ys)) responses = None).
Proof.
  intros Hxs Hys. split.
  - assert (Hmany : buildError (charmhub.RefreshMany xs) = None)
      by (apply refreshMany_Build_from_error; exact Hxs).
    rewrite (refreshMany_Build_ok (charmhub.RefreshMany xs :: ys))
      by (constructor; assumption).
    rewrite (refreshMany_Build_ok (xs ++ ys))
      by (apply Forall_app; split; assumption).
    cbn [flat_map fold_left].
    unfold buildRequest at 1 3, buildHeaders at 2.
    rewrite (refreshMany_Build_ok xs) by exact Hxs.
    cbn [fst snd transport.Context transport.Actions].
    rewrite !flat_map_app, fold_left_app, fold_compose_normal. reflexivity.
  - simpl. rewrite refreshMany_Ensure_ok.
    destruct (charmhub.refreshMany_Ensure xs responses) as [e|] eqn:He.
    + split; [discriminate|]. intros Hall.
      apply Forall_app in Hall as [Hall _].
      apply refreshMany_Ensure_ok in Hall. congruence.
    + rewrite refreshMany_Ensure_ok. apply refreshMany_Ensure_ok in He.
      rewrite Forall_app. tauto.
Qed.

(** X17 at the sample refresh and install configurations. *)
Lemma RefreshMany_flatten_witness :
  charmhub.Build
    (charmhub.RefreshMany (charmhub.RefreshMany [sample_refresh]
                           :: [sample_install]))
  = charmhub.Build (charmhub.RefreshMany ([sample_refresh] ++ [sample_install]))
  /\ (charmhub.Ensure
        (charmhub.RefreshMany (charmhub.RefreshMany [sample_refresh]
                               :: [sample_install])) [] = None
      <-> charmhub.Ensure
            (charmhub.RefreshMany ([sample_refresh] ++ [sample_install])) []
          = None).
Proof.
  apply (RefreshMany_flatten [sample_refresh] [sample_install] []).
  - repeat constructor.
  - repeat constructor.
Defined.

(** X18: the headers built by [RefreshMany] do not depend on the order of
    its configurations: when all of them build, any permutation of them
    builds too, with the same headers. *)
Theorem RefreshMany_headers_order (cs cs' : list charmhub.RefreshConfig) :
  Permutation cs cs' ->
  Forall (fun c => buildError c = None) cs ->
  buildError (charmhub.RefreshMany cs') = None
  /\ buildHeaders (charmhub.RefreshMany cs')
     = buildHeaders (charmhub.RefreshMany cs).
Proof.
  intros Hperm Hok.
  assert (Hok' : Forall (fun c => buildError c = None) cs')
    by (rewrite <- Hperm; exact Hok).
  split; [apply refreshMany_Build_from_error; exact Hok'|].
  unfold buildHeaders at 1 2.
  rewrite !refreshMany_Build_ok by assumption.
  cbn [fst snd].
  symmetry. apply fold_compose_perm. exact Hperm.
Qed.

(** X18 at the install configuration put before the refresh one. *)
Lemma RefreshMany_headers_order_witness :
  buildError (charmhub.RefreshMany [sample_install; sample_refresh]) = None
  /\ buildHeaders (charmhub.RefreshMany [sample_install; sample_refresh])
     = buildHeaders (charmhub.RefreshMany [sample_refresh; sample_install]).
Proof.
  apply (RefreshMany_headers_order [sample_refresh; sample_install]
           [sample_install; sample_refresh]).
  - apply perm_swap.
  - repeat constructor.
Defined.

(** X19: what the six constructors send, for a valid platform and a
    generated instance key.  Each builds without error one action carrying
    the key, with the metadata headers of the platform.  Only [RefreshOne]
    sends a context, and its action always carries the ID, even an empty
    one, and neither revision nor channel; the install constructors never
    send an ID and the download constructors never send a name, and either
    is left out when it is empty; a constructor from a revision sends no
    channel and one from a channel sends no revision. *)
Theorem constructors_send (key id name : string) (revision : Z)
  (channel : string) (platform : charmhub.RefreshPlatform) :
  charmhub.validatePlatform platform = None ->
  let rs := constructed (key, None) id name revision channel platform in
  Forall
    (fun r => exists c, r = (Some c, None) /\ buildError c = None
                        /\ buildHeaders c
                           = charmhub.constructMetadataHeaders platform)
    rs
  /\ map (fun r => map transport.ActionInstanceKey (constructedActions r)) rs
     = [[key]; [key]; [key]; [key]; [key]; [key]]
  /\ map (fun r => map transport.ContextID (constructedContexts r)) rs
     = [[id]; []; []; []; []; []]
  /\ map (fun r => map transport.Action (constructedActions r)) rs
     = [[charmhub.RefreshAction]; [charmhub.InstallAction];
        [charmhub.InstallAction]; [charmhub.DownloadAction];
        [charmhub.DownloadAction]; [charmhub.DownloadAction]]
  /\ map (fun r => map transport.ActionID (constructedActions r)) rs
     = [[Some id]; [None]; [None];
        [optional id]; [optional id]; [optional id]]
  /\ map (fun r => map transport.ActionName (constructedActions r)) rs
     = [[None]; [optional name]; [optional name]; [None]; [None]; [None]]
  /\ map (fun r => map transport.ActionRevision (constructedActions r)) rs
     = [[None]; [Some revision]; [None];
        [Some revision]; [Some revision]; [None]]
  /\ map (fun r => map transport.ActionChannel (constructedActions r)) rs
     = [[None]; [None]; [Some channel];
        [Some channel]; [None]; [Some channel]].
Proof.
  intros Hv rs. subst rs.
  unfold constructed, charmhub.RefreshOne, charmhub.InstallOneFromRevision,
    charmhub.InstallOneFromChannel, charmhub.DownloadOne,
    charmhub.DownloadOneFromRevision, charmhub.DownloadOneFromChannel.
  rewrite !withInstanceKey_result, Hv. cbn [snd fst].
  split; [|repeat split].
  repeat (constructor; [eexists; repeat split|]). constructor.
Qed.

(** X19 at the sample platform. *)
Lemma constructors_send_witness :
  let rs := constructed ("key-1"%string, None) "charm-1" "wordpress" 7
              "latest/stable" sample_platform in
  Forall
    (fun r => exists c, r = (Some c, None) /\ buildError c = None
                        /\ buildHeaders c
                           = charmhub.constructMetadataHeaders sample_platform)
    rs
  /\ map (fun r => map transport.ActionInstanceKey (constructedActions r)) rs
     = [["key-1"]; ["key-1"]; ["key-1"]; ["key-1"]; ["key-1"]; ["key-1"]]%string
  /\ map (fun r => map transport.ContextID (constructedContexts r)) rs
     = [["charm-1"%string]; []; []; []; []; []]
  /\ map (fun r => map transport.Action (constructedActions r)) rs
     = [[charmhub.RefreshAction]; [charmhub.InstallAction];
        [charmhub.InstallAction]; [charmhub.DownloadAction];
        [charmhub.DownloadAction]; [charmhub.DownloadAction]]
  /\ map (fun r => map transport.ActionID (constructedActions r)) rs
     = [[Some "charm-1"%string]; [None]; [None];
        [optional "charm-1"]; [optional "charm-1"]; [optional "charm-1"]]
  /\ map (fun r => map transport.ActionName (constructedActions r)) rs
     = [[None]; [optional "wordpress"]; [optional "wordpress"];
        [None]; [None]; [None]]
  /\ map (fun r => map transport.ActionRevision (constructedActions r)) rs
     = [[None]; [Some 7%Z]; [None]; [Some 7%Z]; [Some 7%Z]; [None]]
  /\ map (fun r => map transport.ActionChannel (constructedActions r)) rs
     = [[None]; [None]; [Some "latest/stable"%string];
        [Some "latest/stable"%string]; [None]; [Some "latest/stable"%string]].
Proof.
  apply (constructors_send "key-1" "charm-1" "wordpress" 7 "latest/stable"
           sample_platform).
  reflexivity.
Defined.


(** ** commands: the API connections of [SSHContainer] *)

Lemma initRun_set (mc : commands.ModelCommandBase)
  (c : commands.SSHContainer) :
  commands.isSet (commands.cloudCredentialAPI c)
  || commands.isSet (commands.modelAPI c)
  || commands.isSet (commands.applicationAPI c) = true ->
  commands.initRun mc c = (None, c).
Proof.
  intros Hset. unfold commands.initRun, commands.ensureAPIClient.
  rewrite Hset. reflexivity.
Qed.

Lemma initRun_unset (mc : commands.ModelCommandBase)
  (c : commands.SSHContainer) :
  commands.cloudCredentialAPI c = None ->
  commands.modelAPI c = None ->
  commands.applicationAPI c = None ->
  commands.initRun mc c
  = (errors.Trace (errors.Trace (fst (commands.initAPIClient mc c))),
     snd (commands.initAPIClient mc c)).
Proof.
  intros H1 H2 H3. unfold commands.initRun, commands.ensureAPIClient.
  rewrite H1, H2, H3. simpl.
  destruct (commands.initAPIClient mc c) as [[e|] c']; reflexivity.
Qed.

(** X21: [initRun] connects only a container that has none of its three
    API clients.  As soon as one of them is set it returns nil and leaves
    the container as it is, without asking the command for anything. *)
Theorem initRun_connected (mc : commands.ModelCommandBase)
  (c : commands.SSHContainer) :
  commands.isSet (commands.cloudCredentialAPI c)
  || commands.isSet (commands.modelAPI c)
  || commands.isSet (commands.applicationAPI c) = true ->
  commands.initRun mc c = (None, c)
  /\ commands.ensureAPIClient mc c = (None, c).
Proof.
  intros Hset. split; [apply initRun_set; exact Hset|].
  unfold commands.ensureAPIClient. rewrite Hset. reflexivity.
Qed.

(** X21 at a container that only has its model client, with a command
    that could not connect. *)
Lemma initRun_connected_witness :
  let c := commands.set_modelAPI (Some "controller-root"%string)
             sample_container in
  commands.initRun sample_command_no_root c = (None, c)
  /\ commands.ensureAPIClient sample_command_no_root c = (None, c).
Proof.
  intros c. apply (initRun_connected sample_command_no_root c). reflexivity.
Defined.

(** X22: a failure to open the API root of the model leaves the container
    half connected.  [initRun] returns the traced error, the controller
    clients and the model UUID stay set and the application client stays
    nil; a later [initRun] then returns nil without connecting the
    application client, whatever the command could do by then. *)
Theorem initRun_half_connected (mc mc' : commands.ModelCommandBase)
  (c : commands.SSHContainer) (e : errors.error) :
  commands.cloudCredentialAPI c = None ->
  commands.modelAPI c = None ->
  commands.applicationAPI c = None ->
  snd (commands.ModelDetails mc) = None ->
  snd (commands.NewControllerAPIRoot mc) = None ->
  snd (commands.NewAPIRoot mc) = Some e ->
  let c1 := snd (commands.initRun mc c) in
  fst (commands.initRun mc c)
  = Some (errors.Traced (errors.Traced (errors.Traced e)))
  /\ commands.modelUUID c1 = fst (commands.ModelDetails mc)
  /\ commands.cloudCredentialAPI c1
     = Some (fst (commands.NewControllerAPIRoot mc))
  /\ commands.modelAPI c1 = Some (fst (commands.NewControllerAPIRoot mc))
  /\ commands.applicationAPI c1 = None
  /\ commands.initRun mc' c1 = (None, c1).
Proof.
  intros H1 H2 H3 Hd Hc Hr c1. subst c1.
  rewrite initRun_unset by assumption.
  unfold commands.initAPIClient.
  destruct (commands.ModelDetails mc) as [uuid ed],
    (commands.NewControllerAPIRoot mc) as [cAPI ec],
    (commands.NewAPIRoot mc) as [root er].
  simpl in Hd, Hc, Hr. subst ed ec er. simpl.
  repeat split; assumption || reflexivity.
Qed.

(** X22 at the sample container and a command without API root for the
    model. *)
Lemma initRun_half_connected_witness :
  let c1 := snd (commands.initRun sample_command_no_root sample_container) in
  fst (commands.initRun sample_command_no_root sample_container)
  = Some (errors.Traced (errors.Traced (errors.Traced
                                          (errors.New "no api root"))))
  /\ commands.modelUUID c1 = fst (commands.ModelDetails sample_command_no_root)
  /\ commands.cloudCredentialAPI c1
     = Some (fst (commands.NewControllerAPIRoot sample_command_no_root))
  /\ commands.modelAPI c1
     = Some (fst (commands.NewControllerAPIRoot sample_command_no_root))
  /\ commands.applicationAPI c1 = None
  /\ commands.initRun sample_command c1 = (None, c1).
Proof.
  apply (initRun_half_connected sample_command_no_root sample_command
           sample_container (errors.New "no api root"));
    reflexivity.
Defined.

(** X23: [cleanupRun] leaves no API client on the container, whatever it
    held, and touches nothing else; running it twice is running it once,
    and [initRun] connects again afterwards. *)
Theorem cleanupRun_clears (mc : commands.ModelCommandBase)
  (c : commands.SSHContainer) :
  let c' := commands.cleanupRun c in
  commands.cloudCredentialAPI c' = None
  /\ commands.modelAPI c' = None
  /\ commands.applicationAPI c' = None
  /\ commands.remote c' = commands.remote c
  /\ commands.GetTarget c' = commands.GetTarget c
  /\ commands.GetArgs c' = commands.GetArgs c
  /\ commands.modelUUID c' = commands.modelUUID c
  /\ commands.execClientGetter c' = commands.execClientGetter c
  /\ commands.cleanupRun c' = c'
  /\ commands.initRun mc c'
     = (errors.Trace (errors.Trace (fst (commands.initAPIClient mc c'))),
        snd (commands.initAPIClient mc c')).
Proof.
  assert (H : commands.cloudCredentialAPI (commands.cleanupRun c) = None
              /\ commands.modelAPI (commands.cleanupRun c) = None
              /\ commands.applicationAPI (commands.cleanupRun c) = None).
  { unfold commands.cleanupRun.
    destruct c as [r t a u [x|] [y|] [z|] g]; repeat split. }
  destruct H as (H1 & H2 & H3). simpl.
  split; [exact H1|]. split; [exact H2|]. split; [exact H3|].
  split; [|split; [|split; [|split; [|split; [|split]]]]];
    try (unfold commands.cleanupRun;
         destruct c as [r t a u [x|] [y|] [z|] g]; reflexivity).
  apply initRun_unset; assumption.
Qed.

(** X24: on a container without API clients, [initRun] returns an error
    exactly when the model details or one of the two API roots cannot be
    had; when it returns nil the three clients are set, the first two on
    the controller root and the third on the model root, with the UUID of
    the model details.  A failure of the model details leaves the
    container untouched. *)
Theorem initRun_connects (mc : commands.ModelCommandBase)
  (c : commands.SSHContainer) :
  commands.cloudCredentialAPI c = None ->
  commands.modelAPI c = None ->
  commands.applicationAPI c = None ->
  (fst (commands.initRun mc c) = None
   <-> snd (commands.ModelDetails mc) = None
       /\ snd (commands.NewControllerAPIRoot mc) = None
       /\ snd (commands.NewAPIRoot mc) = None)
  /\ match fst (commands.initRun mc c) with
     | None =>
         snd (commands.initRun mc c)
         = commands.set_applicationAPI
             (Some (fst (commands.NewAPIRoot mc)))
             (commands.set_controllerClients
                (fst (commands.NewControllerAPIRoot mc))
                (commands.set_modelUUID (fst (commands.ModelDetails mc)) c))
     | Some _ => True
     end
  /\ match snd (commands.ModelDetails mc) with
     | Some e =>
         commands.initRun mc c
         = (Some (errors.Traced (errors.Traced e)), c)
     | None => True
     end.
Proof.
  intros H1 H2 H3. rewrite initRun_unset by assumption.
  unfold commands.initAPIClient.
  destruct (commands.ModelDetails mc) as [uuid [ed|]],
    (commands.NewControllerAPIRoot mc) as [cAPI [ec|]],
    (commands.NewAPIRoot mc) as [root [er|]]; simpl;
    repeat split; try discriminate; try tauto;
    intros (Ha & Hb & Hc); discriminate.
Qed.

(** X24 at the sample container and command. *)
Lemma initRun_connects_witness :
  (fst (commands.initRun sample_command sample_container) = None
   <-> snd (commands.ModelDetails sample_command) = None
       /\ snd (commands.NewControllerAPIRoot sample_command) = None
       /\ snd (commands.NewAPIRoot sample_command) = None)
  /\ match fst (commands.initRun sample_command sample_container) with
     | None =>
         snd (commands.initRun sample_command sample_container)
         = commands.set_applicationAPI
             (Some (fst (commands.NewAPIRoot sample_command)))
             (commands.set_controllerClients
                (fst (commands.NewControllerAPIRoot sample_command))
                (commands.set_modelUUID
                   (fst (commands.ModelDetails sample_command))
                   sample_container))
     | Some _ => True
     end
  /\ match snd (commands.ModelDetails sample_command) with
     | Some e =>
         commands.initRun sample_command sample_container
         = (Some (errors.Traced (errors.Traced e)), sample_container)
     | None => True
     end.
Proof.
  apply (initRun_connects sample_command sample_container); reflexivity.
Defined.
